(** * mr2bib: a verification development for [mr2bib.py]

    The development follows the layout of the Python module:
    - [PyStr]: the fragment of Python 3 [str] (sequences of Unicode code
      points) and [int] formatting that the module relies on;
    - [Mr2bib]: [is_valid], [ReferenceErrorInfo], [mr_request],
      [mr2bib_dict], [mr2bib] and the command line class [Cli], over an
      explicit model of the remote server, the request log, the standard
      streams and Python exceptions;
    - the properties of the specification, one theorem per claim. *)

From Stdlib Require Import ZArith NArith Lia String Ascii DecimalString.
From stdpp Require Import base list gmap.

Set Default Proof Using "Type".

(** ** Python strings *)

Module PyStr.

(** A Python 3 [str] is a sequence of Unicode code points. *)
Abbreviation str := (list N).

(** [lit "..."] is the [str] of an ASCII literal of the source. *)
Definition lit (s : string) : str := N_of_ascii <$> list_ascii_of_string s.
#[global] Arguments lit : simpl never.

Definition in_ranges (tbl : list (N * N)) (c : N) : bool :=
  existsb (λ r, (fst r <=? c)%N && (c <=? snd r)%N) tbl.

Local Open Scope N_scope.

(** Code points [c] with [chr(c).isdigit()], i.e. Unicode Numeric_Type
    Digit or Decimal (Unicode 14.0, the table of CPython 3.11). *)
Definition digit_ranges : list (N * N) :=
  [ (48, 57); (178, 179); (185, 185); (1632, 1641); (1776, 1785);
    (1984, 1993); (2406, 2415); (2534, 2543); (2662, 2671); (2790, 2799);
    (2918, 2927); (3046, 3055); (3174, 3183); (3302, 3311); (3430, 3439);
    (3558, 3567); (3664, 3673); (3792, 3801); (3872, 3881); (4160, 4169);
    (4240, 4249); (4969, 4977); (6112, 6121); (6160, 6169); (6470, 6479);
    (6608, 6618); (6784, 6793); (6800, 6809); (6992, 7001); (7088, 7097);
    (7232, 7241); (7248, 7257); (8304, 8304); (8308, 8313); (8320, 8329);
    (9312, 9320); (9332, 9340); (9352, 9360); (9450, 9450); (9461, 9469);
    (9471, 9471); (10102, 10110); (10112, 10120); (10122, 10130);
    (42528, 42537); (43216, 43225); (43264, 43273); (43472, 43481);
    (43504, 43513); (43600, 43609); (44016, 44025); (65296, 65305);
    (66720, 66729); (68160, 68163); (68912, 68921); (69216, 69224);
    (69714, 69722); (69734, 69743); (69872, 69881); (69942, 69951);
    (70096, 70105); (70384, 70393); (70736, 70745); (70864, 70873);
    (71248, 71257); (71360, 71369); (71472, 71481); (71904, 71913);
    (72016, 72025); (72784, 72793); (73040, 73049); (73120, 73129);
    (92768, 92777); (92864, 92873); (93008, 93017); (120782, 120831);
    (123200, 123209); (123632, 123641); (125264, 125273);
    (127232, 127242); (130032, 130041) ].

(** Code points [c] with [chr(c).isspace()]. *)
Definition space_ranges : list (N * N) :=
  [ (9, 13); (28, 32); (133, 133); (160, 160); (5760, 5760);
    (8192, 8202); (8232, 8233); (8239, 8239); (8287, 8287);
    (12288, 12288) ].

Local Close Scope N_scope.

Definition char_isdigit : N → bool := in_ranges digit_ranges.
Definition char_isspace : N → bool := in_ranges space_ranges.

(** [s.isdigit()]: every character is a digit and there is at least one. *)
Definition isdigit (s : str) : bool :=
  match s with
  | [] => false
  | _ => forallb char_isdigit s
  end.

(** Slice bounds: a negative bound counts from the end, and every bound is
    clamped to [0 .. len]. *)
Definition slice_index (len : nat) (k : Z) : nat :=
  if (k <? 0)%Z then Z.to_nat (Z.max 0 (Z.of_nat len + k))
  else Nat.min len (Z.to_nat k).

(** [s[lo:hi]]; an omitted bound is [None]. *)
Definition slice (s : str) (lo hi : option Z) : str :=
  let n := length s in
  let a := from_option (slice_index n) 0 lo in
  let b := from_option (slice_index n) n hi in
  drop a (take b s).

Definition starts_with (sub s : str) : bool :=
  bool_decide (take (length sub) s = sub).

(** Offset of the last occurrence of [sub] in [s]. *)
Fixpoint rfind_opt (sub s : str) : option nat :=
  match s with
  | [] => if starts_with sub [] then Some 0 else None
  | _ :: s' =>
      match rfind_opt sub s' with
      | Some i => Some (S i)
      | None => if starts_with sub s then Some 0 else None
      end
  end.

(** [s.rfind(sub)]: the highest index where [sub] occurs, or [-1]. *)
Definition rfind (s sub : str) : Z :=
  match rfind_opt sub s with
  | Some i => Z.of_nat i
  | None => (-1)%Z
  end.

(** [sub in s]. *)
Fixpoint contains (sub s : str) : bool :=
  starts_with sub s ||
  match s with
  | [] => false
  | _ :: s' => contains sub s'
  end.

Fixpoint lstrip (s : str) : str :=
  match s with
  | [] => []
  | c :: s' => if char_isspace c then lstrip s' else s
  end.

Definition rstrip (s : str) : str := reverse (lstrip (reverse s)).

(** [s.strip()]. *)
Definition strip (s : str) : str := rstrip (lstrip s).

(** [s.split(sep)] for a one-character separator. *)
Fixpoint split (sep : N) (s : str) : list str :=
  match s with
  | [] => [[]]
  | c :: s' =>
      if (c =? sep)%N then [] :: split sep s'
      else match split sep s' with
           | l :: ls => (c :: l) :: ls
           | [] => [[c]]
           end
  end.

(** [sep.join(parts)]. *)
Fixpoint join (sep : str) (parts : list str) : str :=
  match parts with
  | [] => []
  | [p] => p
  | p :: ps => p ++ sep ++ join sep ps
  end.

(** Whether [s.encode("utf-8")] succeeds: the encoder refuses the
    surrogate code points U+D800 to U+DFFF and raises [UnicodeEncodeError]
    for a string that holds one. *)
Definition is_surrogate (c : N) : bool := (55296 <=? c)%N && (c <=? 57343)%N.
Definition utf8_encodable (s : str) : bool :=
  forallb (λ c, negb (is_surrogate c)) s.

(** [str(n)] for an [int]. *)
Definition str_of_int (z : Z) : str := lit (NilZero.string_of_int (Z.to_int z)).

Definition newline : N := 10%N.

End PyStr.

Import PyStr.

(** ** The module [mr2bib.py] *)

Module Mr2bib.

(** *** Exceptions, world and effects *)

(** The exceptions that the module raises or handles.  [NotFoundError] is
    always raised with two arguments, which the handler in [mr2bib_dict]
    unpacks from [error.args]. *)
Inductive exn :=
| NotFoundError (message key : str)
| AuthenticationException
| Exception (message : str)
| HTTPError (getcode : Z)
| FatalError (message : str)
| UnicodeEncodeError.

Inductive outcome (A : Type) :=
| Return (a : A)
| Raise (e : exn).
Arguments Return {A} a.
Arguments Raise {A} e.

(** What [requests.get] hands back: [r.status_code] and [r.text]. *)
Record response := { status_code : Z; text : str }.

(** One write to standard output: [print(s)], or the bytes of the UTF-8
    encoding of [s] through [print_bytes]. *)
Inductive out_event :=
| Print (s : str)
| WriteUtf8 (s : str).

(** One write to standard error: [sys.stderr.write(s)], or the traceback
    that the interpreter prints for an exception nobody caught; the last
    line of that traceback shows the exception and its message. *)
Inductive err_event :=
| Write (s : str)
| Traceback (e : exn).

(** The observable world: the identifiers sent to the server so far, in
    order, and what was written to the two output streams. *)
Record world := {
  requests : list str;
  stdout : list out_event;
  stderr : list err_event
}.

Definition world0 : world := {| requests := []; stdout := []; stderr := [] |}.

Definition sent (keys : list str) (w : world) : world :=
  {| requests := requests w ++ keys; stdout := stdout w; stderr := stderr w |}.

Definition write_stdout (ev : out_event) (w : world) : world :=
  {| requests := requests w; stdout := stdout w ++ [ev]; stderr := stderr w |}.

Definition write_stderr (ev : err_event) (w : world) : world :=
  {| requests := requests w; stdout := stdout w; stderr := stderr w ++ [ev] |}.

(** Computations that may raise and that act on the world. *)
Definition io (A : Type) : Type := world → outcome A * world.

#[global] Instance io_ret : MRet io := λ A a w, (Return a, w).

#[global] Instance io_bind : MBind io := λ A B f m w,
  match m w with
  | (Return a, w') => f a w'
  | (Raise e, w') => (Raise e, w')
  end.

Definition raise {A} (e : exn) : io A := λ w, (Raise e, w).

(** [try: m except ...: h e]; the handler re-raises what it does not
    handle. *)
Definition try_except {A} (m : io A) (h : exn → io A) : io A := λ w,
  match m w with
  | (Return a, w') => (Return a, w')
  | (Raise e, w') => h e w'
  end.

Definition act (f : world → world) : io unit := λ w, (Return tt, f w).

(** *** Identifiers and references *)

(** [is_valid(key)] *)
Definition is_valid (key : str) : bool :=
  bool_decide (slice key (Some 0%Z) (Some 2%Z) = lit "MR")
  && isdigit (slice key (Some 2%Z) None)
  && bool_decide (length key ∈ [9; 10]).

(** [class Reference] *)
Record Reference := { entry : str }.

(** [class ReferenceErrorInfo] *)
Record ReferenceErrorInfo := {
  message : str;
  id : str;
  bare_id : str;
  updated : str
}.

(** [ReferenceErrorInfo.__init__] *)
Definition ReferenceErrorInfo_init (message id : str) : ReferenceErrorInfo :=
  {| message := message;
     id := id;
     bare_id := slice id None (Some (rfind id (lit "v")));
     updated := lit "0" |}.

(** An element of the list that [mr2bib] returns; [isinstance(b,
    ReferenceErrorInfo)] is the test on the constructor. *)
Inductive bibitem :=
| Ref (r : Reference)
| Err (e : ReferenceErrorInfo).

Definition isinstance_ReferenceErrorInfo (b : bibitem) : bool :=
  match b with Err _ => true | Ref _ => false end.

(** [Reference.bibtex] and [ReferenceErrorInfo.bibtex] *)
Definition bibtex (b : bibitem) : str :=
  match b with
  | Ref r => entry r
  | Err e => lit "@comment{" ++ id e ++ lit ": " ++ message e ++ lit "}"
  end.

(** [ReferenceErrorInfo.__str__] *)
Definition ReferenceErrorInfo_str (e : ReferenceErrorInfo) : str :=
  lit "Error: " ++ message e ++ lit " (" ++ id e ++ lit ")".

(** [correct_key(goodkey, code)] *)
Definition correct_key (goodkey code : str) : str := code.

Section WithEnvironment.

(** The remote service: its answer to a request for [key], given the
    requests it has received before. *)
Variable server : list str → str → response.

(** [os.linesep], and whether [print] can encode a string for the
    terminal. *)
Variable linesep : str.
Variable can_encode : str → bool.

(** *** [mr_request] *)

(** One turn of the loop over the lines of the body, on the locals
    [(inCodeBlock, code)]. *)
Definition scan_line (key : str) (st : bool * str) (line : str)
  : outcome (bool * str) :=
  let '(inCodeBlock, code) := st in
  if contains (lit "No publications results for") line then
    Raise (NotFoundError (lit "No such publication") key)
  else
    let inCodeBlock :=
      if bool_decide (strip line = lit "</pre>") then false else inCodeBlock in
    let code :=
      if inCodeBlock then (code ++ [newline]) ++ line else code in
    let inCodeBlock :=
      if bool_decide (strip line = lit "<pre>") then true else inCodeBlock in
    Return (inCodeBlock, code).

Fixpoint scan_lines (key : str) (st : bool * str) (lines : list str)
  : outcome (bool * str) :=
  match lines with
  | [] => Return st
  | line :: rest =>
      match scan_line key st line with
      | Return st' => scan_lines key st' rest
      | Raise e => Raise e
      end
  end.

(** What [mr_request] does with the response once it has it. *)
Definition handle_response (key : str) (r : response) : outcome str :=
  if (status_code r =? 401)%Z then Raise AuthenticationException
  else if negb (status_code r =? 200)%Z then
    Raise (Exception (lit "Received HTTP status code "
                        ++ str_of_int (status_code r)))
  else
    match scan_lines key (false, []) (split newline (text r)) with
    | Return (_, code) => Return (correct_key key code)
    | Raise e => Raise e
    end.

Definition mr_request (key : str) : io str := λ w,
  let r := server (requests w) key in
  (handle_response key r, sent [key] w).

(** *** [mr2bib_dict] and [mr2bib] *)

(** The loop that validates the keys, on the locals [keys] and [d]. *)
Fixpoint validate_keys (key_list keys : list str) (d : gmap str bibitem)
  : list str * gmap str bibitem :=
  match key_list with
  | [] => (keys, d)
  | key :: rest =>
      if is_valid key then validate_keys rest (keys ++ [key]) d
      else
        validate_keys rest keys
          (<[key := Err (ReferenceErrorInfo_init
                           (lit "Invalid Mathematical Reviews identifier")
                           key)]> d)
  end.

(** The loop that makes the calls; only [NotFoundError] is handled. *)
Fixpoint fetch_keys (keys : list str) (d : gmap str bibitem)
  : io (gmap str bibitem) := λ w,
  match keys with
  | [] => (Return d, w)
  | key :: rest =>
      match mr_request key w with
      | (Return entry, w') =>
          fetch_keys rest (<[key := Ref {| entry := entry |}]> d) w'
      | (Raise (NotFoundError message id), w') =>
          fetch_keys rest (<[key := Err (ReferenceErrorInfo_init message id)]> d) w'
      | (Raise e, w') => (Raise e, w')
      end
  end.

Definition mr2bib_dict (key_list : list str) : io (gmap str bibitem) :=
  let '(keys, d) := validate_keys key_list [] ∅ in
  if (length keys =? 0)%nat then mret d else fetch_keys keys d.

(** The body of the loop of [mr2bib]: [d[id]], or the fallback of the bare
    [except] when the lookup raises. *)
Definition lookup_or_not_found (d : gmap str bibitem) (id : str) : bibitem :=
  match d !! id with
  | Some b => b
  | None => Err (ReferenceErrorInfo_init (lit "Not found") id)
  end.

Definition mr2bib (id_list : list str) : io (list bibitem) :=
  d ← mr2bib_dict id_list;
  mret (lookup_or_not_found d <$> id_list).

(** *** The command line interface *)

(** The namespace that [argparse] returns. *)
Record Args := {
  args_id : list str;
  comments : bool;
  quiet : bool;
  verbose : bool
}.

(** [class Cli] *)
Record Cli := {
  args : Args;
  output : list str;
  messages : list str;
  error_count : Z;
  code : Z
}.

Definition set_args_id (l : list str) (a : Args) : Args :=
  {| args_id := l; comments := comments a; quiet := quiet a;
     verbose := verbose a |}.

Definition set_quiet (q : bool) (a : Args) : Args :=
  {| args_id := args_id a; comments := comments a; quiet := q;
     verbose := verbose a |}.

Definition output_append (s : str) (self : Cli) : Cli :=
  {| args := args self; output := output self ++ [s];
     messages := messages self; error_count := error_count self;
     code := code self |}.

Definition messages_append (s : str) (self : Cli) : Cli :=
  {| args := args self; output := output self;
     messages := messages self ++ [s]; error_count := error_count self;
     code := code self |}.

Definition set_error_count (n : Z) (self : Cli) : Cli :=
  {| args := args self; output := output self; messages := messages self;
     error_count := n; code := code self |}.

Definition set_code (n : Z) (self : Cli) : Cli :=
  {| args := args self; output := output self; messages := messages self;
     error_count := error_count self; code := n |}.

(** [Cli.__init__], given the parsed arguments and the lines of standard
    input. *)
Definition Cli_init (parsed : Args) (stdin : list str) : Cli :=
  let a := parsed in
  let a :=
    if (length (args_id a) =? 0)%nat then set_args_id (strip <$> stdin) a
    else a in
  let a :=
    if comments a && negb (verbose a) then set_quiet true a else a in
  {| args := a; output := []; messages := []; error_count := 0; code := 0 |}.

(** The body of the loop of [Cli.create_output]. *)
Definition create_output_step (self : Cli) (b : bibitem) : Cli :=
  match b with
  | Err e =>
      let self := set_error_count (error_count self + 1) self in
      let self :=
        if comments (args self) then output_append (bibtex b) self
        else self in
      if negb (quiet (args self)) then
        messages_append (ReferenceErrorInfo_str e) self
      else self
  | Ref _ => output_append (bibtex b) self
  end.

(** [Cli.create_output] *)
Definition create_output (self : Cli) (bib : list bibitem) : Cli :=
  foldl create_output_step self bib.

(** [Cli.tally_errors]: the object after the call and the returned code. *)
Definition tally_errors (self : Cli) (bib : list bibitem) : Cli * Z :=
  if (error_count self =? Z.of_nat (length (args_id (args self))))%Z then
    (messages_append (lit "No successful matches") self, 2%Z)
  else if (error_count self >? 0)%Z then
    (messages_append
       (str_of_int (Z.of_nat (length bib) - error_count self)
          ++ lit " of " ++ str_of_int (Z.of_nat (length bib))
          ++ lit " matched succesfully")
       self, 1%Z)
  else (self, 0%Z).

(** [Cli.run] *)
Definition run (self : Cli) : io Cli :=
  bib ← try_except (mr2bib (args_id (args self)))
          (λ error,
             match error with
             | HTTPError c =>
                 raise (FatalError (lit "HTTP Connection Error: "
                                      ++ str_of_int c))
             | _ => raise error
             end);
  let self := create_output self bib in
  let '(self, c) := tally_errors self bib in
  mret (set_code c self).

(** [Cli.print_output].  When [print] cannot encode the output, the
    handler encodes it as UTF-8 itself; that encoding raises
    [UnicodeEncodeError] in its turn for a string with a surrogate, and
    nothing catches it. *)
Definition print_output (self : Cli) : io Cli :=
  match output self with
  | [] => mret self
  | _ =>
      let output_string := join linesep (output self) in
      if can_encode output_string then
        _ ← act (write_stdout (Print output_string));
        mret self
      else if utf8_encodable (output_string ++ linesep) then
        _ ← act (write_stdout (WriteUtf8 (output_string ++ linesep)));
        if verbose (args self) then
          mret (messages_append
                  (lit "Could not use system encoding; using utf-8") self)
        else mret self
      else raise UnicodeEncodeError
  end.

(** [Cli.print_messages] *)
Definition print_messages (self : Cli) : io Cli :=
  match messages self with
  | [] => mret self
  | _ =>
      let self := messages_append [] self in
      _ ← act (write_stderr (Write (join linesep (messages self))));
      mret self
  end.

(** [main], given the parsed arguments and the lines of standard input.
    The handler covers [cli.run()] only and returns 2 from [main]. *)
Definition main (parsed : Args) (stdin : list str) : io Z :=
  let cli := Cli_init parsed stdin in
  r ← try_except
        (cli ← run cli; mret (inl cli))
        (λ err,
           match err with
           | FatalError m =>
               _ ← act (write_stderr (Write (m ++ linesep)));
               mret (inr 2%Z)
           | _ => raise err
           end);
  match r with
  | inr status => mret status
  | inl cli =>
      cli ← print_output cli;
      cli ← print_messages cli;
      mret (code cli)
  end.

(** [sys.exit(main())], once [parse_args] has returned the namespace
    [parsed]: the exit status of the process and the final world.  An
    exception that leaves [main] is reported by the interpreter with a
    traceback, and the process ends with status 1. *)
Definition script (parsed : Args) (stdin : list str) (w : world)
  : Z * world :=
  match main parsed stdin w with
  | (Return status, w') => (status, w')
  | (Raise e, w') => (1%Z, write_stderr (Traceback e) w')
  end.

End WithEnvironment.

End Mr2bib.

Import Mr2bib.

(** ** Vocabulary of the properties

    The definitions that the statements below use: the readings of the
    specification that are compared with the code, the declarative
    description of what the loops compute, and sample environments. *)

(** *** Validation *)

(** The rule as the specification words it: the characters after the
    prefix are decimal digits, [0] to [9]. *)
Definition is_decimal_digit (c : N) : bool := (48 <=? c)%N && (c <=? 57)%N.

Definition spec_is_valid (s : str) : bool :=
  bool_decide (take 2 s = lit "MR")
  && forallb is_decimal_digit (drop 2 s)
  && ((length s =? 9) || (length s =? 10)).

(** The character ["v"]. *)
Definition letter_v : N := 118%N.

(** *** Extraction *)

(** The tests that [mr_request] makes on a line. *)
Definition has_marker (line : str) : bool :=
  contains (lit "No publications results for") line.
Definition is_open (line : str) : bool :=
  bool_decide (strip line = lit "<pre>").
Definition is_close (line : str) : bool :=
  bool_decide (strip line = lit "</pre>").

Definition is_open_at (lines : list str) (j : nat) : bool :=
  from_option is_open false (lines !! j).
Definition is_close_at (lines : list str) (j : nat) : bool :=
  from_option is_close false (lines !! j).

(** Before line [n] a block is open: some line [j < n] is a ["<pre>"]
    marker line and no line strictly between [j] and [n] is a ["</pre>"]
    marker line. *)
Definition pending_open (lines : list str) (n : nat) : bool :=
  existsb
    (λ j, is_open_at lines j
          && forallb (λ m, negb (is_close_at lines m)) (seq (S j) (n - S j)))
    (seq 0 n).

(** Line [i] comes after a ["<pre>"] marker line, with no ["</pre>"]
    marker line after that marker up to and including line [i]. *)
Definition in_block (lines : list str) (i : nat) : bool :=
  pending_open lines i && negb (is_close_at lines i).

(** The lines in a block, each prefixed by a line break, concatenated. *)
Definition block_text (lines : list str) : str :=
  concat (imap (λ i line, if in_block lines i then newline :: line else [])
            lines).

(** The reading of the specification: a line counts only when a ["</pre>"]
    marker line follows it, so that it lies strictly between the two
    markers. *)
Definition closed_later (lines : list str) (i : nat) : bool :=
  existsb (is_close_at lines) (seq (S i) (length lines - S i)).

Definition spec_block_text (lines : list str) : str :=
  concat (imap (λ i line,
                  if in_block lines i && closed_later lines i
                  then newline :: line else [])
            lines).

(** The loop body on a line without the not-found marker. *)
Definition scan_step (st : bool * str) (line : str) : bool * str :=
  let b := if is_close line then false else st.1 in
  (if is_open line then true else b,
   if b then (st.2 ++ [newline]) ++ line else st.2).

(** A server whose answer to every request is the body ["<pre>\nfoo"]:
    the block is opened and never closed. *)
Definition unclosed_body : str := lit "<pre>" ++ [newline] ++ lit "foo".
Definition unclosed_server (log : list str) (key : str) : response :=
  {| status_code := 200; text := unclosed_body |}.

(** [lines] joined by line breaks. *)
Definition unlines (lines : list str) : str := join [newline] lines.

(** A page that carries the record of [key] in a closed block, and the
    text that [mr_request] extracts from it. *)
Definition sample_page (key : str) : str :=
  unlines [ lit "<html>"; lit "  <pre>";
            lit "@article {" ++ key ++ lit ","; lit "}";
            lit "</pre>"; lit "</html>" ].

Definition sample_record (key : str) : str :=
  [newline] ++ lit "@article {" ++ key ++ lit "," ++ [newline] ++ lit "}".

(** A sample service: it does not know ["MR0000000"], fails with status
    500 on ["MR5000000"], and otherwise answers with the page of the
    key. *)
Definition sample_server (log : list str) (key : str) : response :=
  if bool_decide (key = lit "MR0000000") then
    {| status_code := 200;
       text := unlines [ lit "<html>";
                         lit "No publications results for MR0000000";
                         lit "</html>" ] |}
  else if bool_decide (key = lit "MR5000000") then
    {| status_code := 500; text := [] |}
  else {| status_code := 200; text := sample_page key |}.

(** *** Aggregation *)

(** The messages of the two kinds of error entry. *)
Definition invalid_message : str :=
  lit "Invalid Mathematical Reviews identifier".
Definition not_found_message : str := lit "No such publication".

(** The keys that pass validation, in input order. *)
Definition valid_keys (key_list : list str) : list str :=
  filter (λ key, is_valid key = true) key_list.

(** What the loop of [mr2bib_dict] stores for the outcome of a call; [None]
    when the exception is not handled there. *)
Definition item_of (o : outcome str) : option bibitem :=
  match o with
  | Return e => Some (Ref {| entry := e |})
  | Raise (NotFoundError m k) => Some (Err (ReferenceErrorInfo_init m k))
  | Raise _ => None
  end.

(** The outcome of the [n]-th call made for the keys [keys], from the
    world [w]: the server has seen the earlier ones. *)
Definition nth_fetch (server : list str → str → response) (w : world)
    (keys : list str) (n : nat) (key : str)
  : outcome str :=
  handle_response key (server (requests w ++ take n keys) key).

(** No call for the keys [keys] fails fatally: each is answered with
    status 200. *)
Definition all_ok (server : list str → str → response) (w : world)
    (keys : list str) : Prop :=
  ∀ n k, keys !! n = Some k →
         status_code (server (requests w ++ take n keys) k) = 200%Z.

(** The entry [b] of the result list is the one of the identifier [k]:
    for an invalid identifier, the error that says so; for a valid one,
    what the answer to the last request for [k] gives, the not-found error
    when its body has the marker and otherwise the record with the text
    of its blocks. *)
Definition entry_for (server : list str → str → response) (w : world)
    (keys : list str) (k : str) (b : bibitem) : Prop :=
  if is_valid k then
    ∃ n, keys !! n = Some k
         ∧ (∀ m, n < m → keys !! m ≠ Some k)
         ∧ b = (let r := server (requests w ++ take n keys) k in
                if has_marker (text r) then
                  Err (ReferenceErrorInfo_init not_found_message k)
                else
                  Ref {| entry := block_text (split newline (text r)) |})
  else b = Err (ReferenceErrorInfo_init invalid_message k).

(** The result list of the sample batch. *)
Definition sample_result : list bibitem :=
  [ Err (ReferenceErrorInfo_init invalid_message (lit "bad"));
    Err (ReferenceErrorInfo_init not_found_message (lit "MR0000000"));
    Ref {| entry := sample_record (lit "MR1996800") |};
    Ref {| entry := sample_record (lit "MR1996800") |} ].

(** A batch for the sample service: an invalid identifier, one that the
    service does not know, and one that it knows, asked for twice. *)
Definition sample_ids : list str :=
  [ lit "bad"; lit "MR0000000"; lit "MR1996800"; lit "MR1996800" ].

(** *** Reporting *)

(** Whether [print_output] can write the output buffer [out]: it is
    empty, or [print] can encode the joined lines, or the UTF-8 fallback
    can. *)
Definition output_writable (linesep : str) (can_encode : str → bool)
    (out : list str) : bool :=
  match out with
  | [] => true
  | _ =>
      can_encode (join linesep out)
      || utf8_encodable (join linesep out ++ linesep)
  end.

(** An argument that is not valid and that no encoder accepts: the lone
    surrogate U+DCFF, which is what the byte [0xff] of a command line
    becomes. *)
Definition surrogate_id : str := [56575%N].

(** A service whose record is that character. *)
Definition surrogate_server (log : list str) (key : str) : response :=
  {| status_code := 200;
     text := unlines [lit "<pre>"; surrogate_id; lit "</pre>"] |}.

(** The number of error entries of a result list. *)
Definition count_errors (bib : list bibitem) : nat :=
  length (filter (λ b, isinstance_ReferenceErrorInfo b = true) bib).

(** What [create_output] appends to [output] and to [messages] for one
    entry. *)
Definition output_of (a : Args) (b : bibitem) : list str :=
  match b with
  | Ref _ => [bibtex b]
  | Err _ => if comments a then [bibtex b] else []
  end.

Definition message_of (a : Args) (b : bibitem) : list str :=
  match b with
  | Ref _ => []
  | Err e => if quiet a then [] else [ReferenceErrorInfo_str e]
  end.

(** The flag [-c] alone, on a result list with an error and a record. *)
Definition comments_args : Args :=
  {| args_id := sample_ids; comments := true; quiet := false;
     verbose := false |}.

Definition error_and_record : list bibitem :=
  [ Err (ReferenceErrorInfo_init invalid_message (lit "bad"));
    Ref {| entry := sample_record (lit "MR1996800") |} ].

(** The sample batch without any flag: two errors out of four. *)
Definition plain_args : Args :=
  {| args_id := sample_ids; comments := false; quiet := false;
     verbose := false |}.

(** A batch whose second identifier makes the sample service fail. *)
Definition failing_ids : list str :=
  [ lit "MR1996800"; lit "MR5000000"; lit "MR1996801" ].

(** *** Further environments *)

(** The exception that [mr_request] raises for a status other than 200. *)
Definition fatal_exn (s : Z) : exn :=
  if (s =? 401)%Z then AuthenticationException
  else Exception (lit "Received HTTP status code " ++ str_of_int s).

(** A service that asks for authentication once it has answered one
    request. *)
Definition auth_server (log : list str) (key : str) : response :=
  match log with
  | [] => {| status_code := 200; text := sample_page key |}
  | _ => {| status_code := 401; text := [] |}
  end.

(** A service that does not know a key the first time it is asked for it
    and answers with its page from the second time on. *)
Definition flaky_server (log : list str) (key : str) : response :=
  if bool_decide (key ∈ log) then
    {| status_code := 200; text := sample_page key |}
  else
    {| status_code := 200;
       text := unlines [ lit "<html>";
                         lit "No publications results for " ++ key;
                         lit "</html>" ] |}.

(** The identifier ["MR1996800"], and a batch that asks for it twice. *)
Definition MR1996800 : str := lit "MR1996800".
Definition twice : list str := [MR1996800; MR1996800].

(** Two copies of the record of ["MR1996800"]. *)
Definition twice_result : list bibitem :=
  [ Ref {| entry := sample_record MR1996800 |};
    Ref {| entry := sample_record MR1996800 |} ].

(** ** Properties of the string operations *)

Section StringFacts.

Lemma take_min_length {A} (l : list A) k :
  take (length l `min` k) l = take k l.
Proof.
  destruct (decide (k ≤ length l)).
  - by rewrite Nat.min_r.
  - rewrite Nat.min_l by lia. rewrite !take_ge; [done | lia | lia].
Qed.

Lemma drop_min_length {A} (l : list A) k :
  drop (length l `min` k) l = drop k l.
Proof.
  destruct (decide (k ≤ length l)).
  - by rewrite Nat.min_r.
  - rewrite Nat.min_l by lia. rewrite !drop_ge; [done | lia | lia].
Qed.

(** [s[0:k]] *)
Lemma slice_prefix (s : str) (k : nat) :
  slice s (Some 0%Z) (Some (Z.of_nat k)) = take k s.
Proof.
  unfold slice, slice_index; simpl.
  destruct (Z.ltb_spec (Z.of_nat k) 0); [lia|].
  rewrite Nat2Z.id, Nat.min_0_r. simpl. apply take_min_length.
Qed.

(** [s[k:]] *)
Lemma slice_suffix (s : str) (k : nat) :
  slice s (Some (Z.of_nat k)) None = drop k s.
Proof.
  unfold slice, slice_index; simpl.
  destruct (Z.ltb_spec (Z.of_nat k) 0); [lia|].
  rewrite Nat2Z.id, firstn_all. apply drop_min_length.
Qed.

(** [s[:k]] for [k >= 0] *)
Lemma slice_upto (s : str) (k : nat) :
  slice s None (Some (Z.of_nat k)) = take k s.
Proof.
  unfold slice, slice_index; simpl.
  destruct (Z.ltb_spec (Z.of_nat k) 0); [lia|].
  rewrite Nat2Z.id. apply take_min_length.
Qed.

(** [s[:-1]] *)
Lemma slice_drop_last (s : str) :
  slice s None (Some (-1)%Z) = removelast s.
Proof.
  unfold slice, slice_index; simpl.
  rewrite removelast_firstn_len, drop_0. f_equal. lia.
Qed.

Lemma isdigit_spec (s : str) :
  isdigit s = true ↔ s ≠ [] ∧ Forall (λ c, char_isdigit c = true) s.
Proof.
  destruct s as [|c s].
  - split; [done | intros [? _]; done].
  - unfold isdigit. rewrite forallb_forall, List.Forall_forall.
    split; [intros H; split; [done | exact H] | intros [_ H]; exact H].
Qed.

Lemma starts_with_char (c x : N) (s : str) :
  starts_with [c] (x :: s) = bool_decide (x = c).
Proof.
  unfold starts_with; simpl. rewrite take_0.
  apply bool_decide_ext. naive_solver.
Qed.

(** [s.rfind(c)] when the character does not occur *)
Lemma rfind_absent (c : N) (s : str) : c ∉ s → rfind s [c] = (-1)%Z.
Proof.
  unfold rfind. intros Hc.
  enough (rfind_opt [c] s = None) as -> by done.
  induction s as [|x s IH]; [done|].
  apply not_elem_of_cons in Hc as [Hx Hs].
  cbn [rfind_opt]. rewrite (IH Hs), starts_with_char.
  by rewrite bool_decide_eq_false_2.
Qed.

(** [s.rfind(c)] when the character occurs: the offset of its last
    occurrence *)
Lemma rfind_present (c : N) (s : str) :
  c ∈ s →
  ∃ pre post, s = pre ++ [c] ++ post ∧ (c ∉ post)
              ∧ rfind s [c] = Z.of_nat (length pre).
Proof.
  unfold rfind. intros Hc.
  enough (∃ pre post, s = pre ++ [c] ++ post ∧ (c ∉ post)
                      ∧ rfind_opt [c] s = Some (length pre))
    as (pre & post & ? & ? & ->) by eauto.
  induction s as [|x s IH]; [by apply elem_of_nil in Hc|].
  destruct (decide (c ∈ s)) as [Hs|Hs].
  - destruct (IH Hs) as (pre & post & -> & Hpost & Hr).
    exists (x :: pre), post. cbn [rfind_opt]. by rewrite Hr.
  - apply elem_of_cons in Hc as [->|?]; [|done].
    exists [], s. split_and!; [done..|].
    cbn [rfind_opt]. pose proof (rfind_absent x s Hs) as Hn.
    unfold rfind in Hn. destruct (rfind_opt [x] s); [lia|].
    by rewrite starts_with_char, bool_decide_eq_true_2.
Qed.

End StringFacts.

(** ** The identifier validator *)

Section Validator.

Lemma is_valid_unfold (key : str) :
  is_valid key
  = bool_decide (take 2 key = lit "MR") && isdigit (drop 2 key)
    && bool_decide (length key ∈ [9; 10]).
Proof.
  unfold is_valid.
  change (Some 2%Z) with (Some (Z.of_nat 2)).
  by rewrite slice_prefix, slice_suffix.
Qed.

Lemma ascii_isdigit (c : N) :
  (c < 128)%N → char_isdigit c = is_decimal_digit c.
Proof.
  intros Hc.
  assert (forallb (λ n, bool_decide (char_isdigit (N.of_nat n)
                                     = is_decimal_digit (N.of_nat n)))
            (seq 0 128) = true) as Hall by (vm_compute; reflexivity).
  rewrite forallb_forall in Hall.
  specialize (Hall (N.to_nat c)).
  rewrite N2Nat.id, bool_decide_eq_true in Hall.
  apply Hall, in_seq. lia.
Qed.

Lemma length_9_or_10 (n : nat) : n ∈ [9; 10] ↔ n = 9 ∨ n = 10.
Proof. rewrite !elem_of_cons, elem_of_nil. tauto. Qed.

Lemma drop_2_nonempty (s : str) : length s = 9 ∨ length s = 10 → drop 2 s ≠ [].
Proof.
  intros Hlen Hnil. apply (f_equal length) in Hnil.
  rewrite length_drop in Hnil. simpl in Hnil. lia.
Qed.

Lemma is_valid_true_iff (s : str) :
  is_valid s = true
  ↔ take 2 s = lit "MR"
    ∧ Forall (λ c, char_isdigit c = true) (drop 2 s)
    ∧ (length s = 9 ∨ length s = 10).
Proof.
  rewrite is_valid_unfold, !andb_true_iff, !bool_decide_eq_true.
  rewrite isdigit_spec, length_9_or_10.
  pose proof (drop_2_nonempty s). tauto.
Qed.

Lemma spec_is_valid_true_iff (s : str) :
  spec_is_valid s = true
  ↔ take 2 s = lit "MR"
    ∧ Forall (λ c, is_decimal_digit c = true) (drop 2 s)
    ∧ (length s = 9 ∨ length s = 10).
Proof.
  unfold spec_is_valid.
  rewrite !andb_true_iff, orb_true_iff, bool_decide_eq_true.
  rewrite forallb_forall, List.Forall_forall, !Nat.eqb_eq. tauto.
Qed.

End Validator.

(** C6 (as stated, refuted).  The validator accepts ["MR199680²"], whose
    last character U+00B2 SUPERSCRIPT TWO satisfies [str.isdigit] but is
    not a decimal digit. *)
Lemma is_valid_superscript_two :
  ¬ (is_valid (lit "MR199680" ++ [178%N]) = true
     ↔ spec_is_valid (lit "MR199680" ++ [178%N]) = true).
Proof.
  assert (is_valid (lit "MR199680" ++ [178%N]) = true) as Hv
    by (vm_compute; reflexivity).
  assert (spec_is_valid (lit "MR199680" ++ [178%N]) = false) as Hs
    by (vm_compute; reflexivity).
  rewrite Hv, Hs. intros [H _]. by specialize (H eq_refl).
Qed.

(** C6 (amended).  [is_valid s] holds exactly when the first two characters
    of [s] are ["MR"], every remaining character is a digit in the sense
    of [str.isdigit], and the length of [s] is 9 or 10.  On strings of
    ASCII characters this is the rule with the decimal digits [0]-[9];
    the six sample identifiers are classified as the specification
    lists them. *)
Theorem is_valid_iff :
  (∀ s : str,
     is_valid s = true
     ↔ take 2 s = lit "MR"
       ∧ Forall (λ c, char_isdigit c = true) (drop 2 s)
       ∧ (length s = 9 ∨ length s = 10))
  ∧ (∀ s : str, Forall (λ c, (c < 128)%N) s → is_valid s = spec_is_valid s)
  ∧ is_valid (lit "MR1996800") = true
  ∧ is_valid (lit "MR19968000") = true
  ∧ is_valid (lit "XR1996800") = false
  ∧ is_valid (lit "MR19A6800") = false
  ∧ is_valid (lit "MR199680") = false
  ∧ is_valid (lit "MR199680000") = false.
Proof.
  split; [exact is_valid_true_iff|].
  split; [|by vm_compute].
  intros s Hs. apply eq_true_iff_eq.
  rewrite is_valid_true_iff, spec_is_valid_true_iff.
  assert (Forall (λ c, char_isdigit c = true) (drop 2 s)
          ↔ Forall (λ c, is_decimal_digit c = true) (drop 2 s)) as ->; [|done].
  apply (Forall_drop _ 2) in Hs.
  induction Hs as [|c r Hc _ IH]; [done|].
  by rewrite !Forall_cons, IH, (ascii_isdigit c Hc).
Qed.

(** The amended rule at work on an ASCII identifier. *)
Lemma is_valid_iff_witness :
  Forall (λ c, (c < 128)%N) (lit "MR1996800")
  ∧ is_valid (lit "MR1996800") = spec_is_valid (lit "MR1996800").
Proof.
  assert (Forall (λ c, (c < 128)%N) (lit "MR1996800")) as H
    by (vm_compute; repeat constructor).
  split; [exact H|].
  exact (proj1 (proj2 is_valid_iff) (lit "MR1996800") H).
Defined.

(** ** The bare form of an error's identifier *)

(** C10.  For an identifier without ["v"], [rfind] yields [-1] and the
    bare form is the identifier without its last character; for an
    identifier with ["v"], it is the part before the last ["v"]. *)
Theorem bare_id_spec (message ident : str) :
  lit "v" = [letter_v]
  ∧ ((letter_v ∉ ident) →
     rfind ident (lit "v") = (-1)%Z
     ∧ bare_id (ReferenceErrorInfo_init message ident) = removelast ident)
  ∧ (letter_v ∈ ident →
     ∃ pre post,
       ident = pre ++ [letter_v] ++ post ∧ (letter_v ∉ post)
       ∧ bare_id (ReferenceErrorInfo_init message ident) = pre).
Proof.
  split; [done|]. cbn [bare_id ReferenceErrorInfo_init].
  change (lit "v") with [letter_v]. split.
  - intros Hv. rewrite (rfind_absent _ _ Hv). split; [done|].
    apply slice_drop_last.
  - intros Hv. destruct (rfind_present _ _ Hv) as (pre & post & Heq & Hpost & Hr).
    exists pre, post. split_and!; [done..|].
    rewrite Hr, slice_upto, Heq. by rewrite take_app_length.
Qed.

(** Both cases on identifiers the program can meet: ["MR1996800"] loses its
    last digit, ["1512.00567v2"] loses its version suffix. *)
Lemma bare_id_spec_witness :
  ((letter_v ∉ lit "MR1996800")
   ∧ bare_id (ReferenceErrorInfo_init (lit "Not found") (lit "MR1996800"))
     = lit "MR199680")
  ∧ (letter_v ∈ lit "1512.00567v2"
     ∧ ∃ pre post,
         lit "1512.00567v2" = pre ++ [letter_v] ++ post ∧ (letter_v ∉ post)
         ∧ bare_id (ReferenceErrorInfo_init (lit "Not found")
                      (lit "1512.00567v2")) = pre).
Proof.
  assert (letter_v ∉ lit "MR1996800") as H1
    by (apply (bool_decide_unpack _); vm_compute; exact I).
  assert (letter_v ∈ lit "1512.00567v2") as H2
    by (apply (bool_decide_unpack _); vm_compute; exact I).
  split; (split; [done|]).
  - exact (proj2 (proj1 (proj2 (bare_id_spec (lit "Not found") (lit "MR1996800"))) H1)).
  - exact (proj2 (proj2 (bare_id_spec (lit "Not found") (lit "1512.00567v2"))) H2).
Defined.

(** ** Extraction of the markup from a response body *)

Section Extraction.

Lemma scan_line_no_marker key st line :
  has_marker line = false → scan_line key st line = Return (scan_step st line).
Proof.
  unfold has_marker, scan_line, scan_step, is_open, is_close.
  destruct st as [b c]. by intros ->.
Qed.

Lemma scan_line_marker key st line :
  has_marker line = true →
  scan_line key st line
  = Raise (NotFoundError (lit "No such publication") key).
Proof. unfold has_marker, scan_line. destruct st. by intros ->. Qed.

Lemma scan_lines_no_marker key lines st :
  Forall (λ line, has_marker line = false) lines →
  scan_lines key st lines = Return (foldl scan_step st lines).
Proof.
  intros H. revert st. induction H as [|line lines Hl _ IH]; intros st; [done|].
  cbn [scan_lines foldl]. by rewrite (scan_line_no_marker _ _ _ Hl), IH.
Qed.

Lemma scan_lines_marker key lines st :
  Exists (λ line, has_marker line = true) lines →
  scan_lines key st lines
  = Raise (NotFoundError (lit "No such publication") key).
Proof.
  intros H. revert st. induction lines as [|line lines IH]; intros st.
  - by apply Exists_nil in H.
  - cbn [scan_lines]. destruct (has_marker line) eqn:Hl.
    + by rewrite (scan_line_marker _ _ _ Hl).
    + rewrite (scan_line_no_marker _ _ _ Hl). apply IH.
      apply Exists_cons in H as [H|H]; [congruence | done].
Qed.

Lemma existsb_ext_in {A} (f g : A → bool) (l : list A) :
  (∀ x, In x l → f x = g x) → existsb f l = existsb g l.
Proof.
  induction l as [|a l IH]; intros H; [done|]. simpl.
  rewrite (H a) by (by left). rewrite IH; [done|]. intros x Hx. apply H. by right.
Qed.

Lemma forallb_ext_in {A} (f g : A → bool) (l : list A) :
  (∀ x, In x l → f x = g x) → forallb f l = forallb g l.
Proof.
  induction l as [|a l IH]; intros H; [done|]. simpl.
  rewrite (H a) by (by left). rewrite IH; [done|]. intros x Hx. apply H. by right.
Qed.

Lemma existsb_andb_r {A} (f : A → bool) (c : bool) (l : list A) :
  existsb (λ x, f x && c) l = existsb f l && c.
Proof.
  induction l as [|a l IH]; [done|]. simpl. rewrite IH.
  destruct (f a), (existsb f l), c; done.
Qed.

Lemma is_open_at_app_l lines rest j :
  j < length lines → is_open_at (lines ++ rest) j = is_open_at lines j.
Proof. intros. unfold is_open_at. by rewrite lookup_app_l. Qed.

Lemma is_close_at_app_l lines rest j :
  j < length lines → is_close_at (lines ++ rest) j = is_close_at lines j.
Proof. intros. unfold is_close_at. by rewrite lookup_app_l. Qed.

Lemma is_open_at_last lines line :
  is_open_at (lines ++ [line]) (length lines) = is_open line.
Proof. unfold is_open_at. by rewrite list_lookup_middle. Qed.

Lemma is_close_at_last lines line :
  is_close_at (lines ++ [line]) (length lines) = is_close line.
Proof. unfold is_close_at. by rewrite list_lookup_middle. Qed.

(** Whether a block is open before line [n] depends on the lines before
    [n] only. *)
Lemma pending_open_app_l lines rest n :
  n ≤ length lines → pending_open (lines ++ rest) n = pending_open lines n.
Proof.
  intros Hn. unfold pending_open. apply existsb_ext_in.
  intros j Hj%in_seq. rewrite is_open_at_app_l by lia. f_equal.
  apply forallb_ext_in. intros m Hm%in_seq.
  rewrite is_close_at_app_l by lia. done.
Qed.

Lemma in_block_app_l lines rest i :
  i < length lines → in_block (lines ++ rest) i = in_block lines i.
Proof.
  intros Hi. unfold in_block.
  rewrite pending_open_app_l by lia. by rewrite is_close_at_app_l.
Qed.

(** The flag [inCodeBlock] after one more line. *)
Lemma pending_open_snoc lines line :
  pending_open (lines ++ [line]) (S (length lines))
  = (if is_open line then true
     else if is_close line then false
     else pending_open lines (length lines)).
Proof.
  set (n := length lines).
  unfold pending_open at 1. rewrite seq_S, existsb_app. simpl.
  rewrite Nat.sub_diag. simpl. rewrite is_open_at_last, andb_true_r, orb_false_r.
  rewrite (existsb_ext_in _
    (λ j, (is_open_at lines j
           && forallb (λ m, negb (is_close_at lines m)) (seq (S j) (n - S j)))
          && negb (is_close line))).
  - rewrite existsb_andb_r. fold (pending_open lines n).
    destruct (is_open line), (is_close line), (pending_open lines n); done.
  - intros j Hj%in_seq. rewrite is_open_at_app_l by (subst n; lia).
    rewrite <- andb_assoc. f_equal.
    replace (n - j) with (S (n - S j)) by lia.
    rewrite seq_S, forallb_app. simpl.
    replace (S (j + (n - S j))) with n by lia.
    subst n. rewrite is_close_at_last, andb_true_r. f_equal.
    apply forallb_ext_in. intros m Hm%in_seq.
    by rewrite is_close_at_app_l by lia.
Qed.

Lemma block_text_snoc lines line :
  block_text (lines ++ [line])
  = block_text lines
    ++ (if pending_open lines (length lines) && negb (is_close line)
        then newline :: line else []).
Proof.
  unfold block_text. rewrite imap_app, concat_app. simpl.
  rewrite Nat.add_0_r, app_nil_r. f_equal.
  - f_equal. apply imap_ext. intros i x Hx. simpl.
    by rewrite in_block_app_l by (by eapply lookup_lt_Some).
  - unfold in_block. rewrite pending_open_app_l by lia.
    by rewrite is_close_at_last.
Qed.

(** The loop of [mr_request] on lines without the not-found marker. *)
Lemma foldl_scan_step lines :
  foldl scan_step (false, []) lines
  = (pending_open lines (length lines), block_text lines).
Proof.
  induction lines as [|line lines IH] using rev_ind; [done|].
  rewrite foldl_app. simpl. rewrite IH. unfold scan_step. simpl.
  rewrite length_app. simpl. rewrite Nat.add_1_r.
  rewrite pending_open_snoc, block_text_snoc. f_equal.
  destruct (is_close line), (pending_open lines (length lines)); simpl;
    rewrite ?app_nil_r; try done.
  by rewrite <- app_assoc.
Qed.

Lemma pending_open_no_open lines n :
  Forall (λ line, is_open line = false) lines → pending_open lines n = false.
Proof.
  intros H. unfold pending_open.
  rewrite (existsb_ext_in _ (λ _, false)).
  - induction (seq 0 n); done.
  - intros j _. unfold is_open_at.
    destruct (lines !! j) as [line|] eqn:Hj; [|done]. simpl.
    rewrite Forall_lookup in H. by rewrite (H _ _ Hj).
Qed.

Lemma block_text_no_open lines :
  Forall (λ line, is_open line = false) lines → block_text lines = [].
Proof.
  intros H. unfold block_text.
  rewrite (imap_ext _ (λ _ _, [])).
  - generalize lines at 1. intros l. induction l as [|x l IH]; [done|].
    by rewrite imap_cons.
  - intros i x _. simpl. unfold in_block. by rewrite pending_open_no_open.
Qed.

End Extraction.

Section BodyAndLines.

Lemma starts_with_decompose (sub s : str) :
  starts_with sub s = true → s = sub ++ drop (length sub) s.
Proof.
  unfold starts_with. rewrite bool_decide_eq_true. intros H.
  transitivity (take (length sub) s ++ drop (length sub) s).
  - by rewrite take_drop.
  - by rewrite H.
Qed.

Lemma contains_iff (sub s : str) :
  contains sub s = true ↔ ∃ pre post, s = pre ++ sub ++ post.
Proof.
  split.
  - induction s as [|c s IH]; cbn [contains]; rewrite orb_true_iff;
      intros [H|H]; try done.
    + exists [], (drop (length sub) []). by apply starts_with_decompose.
    + exists [], (drop (length sub) (c :: s)). by apply starts_with_decompose.
    + destruct (IH H) as (pre & post & ->). by exists (c :: pre), post.
  - intros (pre & post & ->). induction pre as [|c pre IH].
    + assert (starts_with sub (sub ++ post) = true) as Hs.
      { unfold starts_with. apply bool_decide_eq_true. by rewrite take_app_length. }
      simpl. destruct (sub ++ post); cbn [contains]; by rewrite Hs.
    + change ((c :: pre) ++ sub ++ post) with (c :: (pre ++ sub ++ post)).
      cbn [contains]. rewrite IH. apply orb_true_r.
Qed.

Lemma split_nonempty (sep : N) (s : str) : split sep s ≠ [].
Proof.
  destruct s as [|c s]; cbn [split]; [done|].
  destruct (c =? sep)%N; [done|]. by destruct (split sep s).
Qed.

(** The first piece of [s.split(sep)] is a prefix of [s]. *)
Lemma split_head_prefix (sep : N) (s l : str) (ls : list str) :
  split sep s = l :: ls → ∃ rest, s = l ++ rest.
Proof.
  revert l ls. induction s as [|c s IH]; intros l ls; cbn [split].
  - intros [= <- <-]. by exists [].
  - destruct (c =? sep)%N.
    + intros [= <- <-]. by exists (c :: s).
    + destruct (split sep s) as [|l' ls'] eqn:Hs.
      * by destruct (split_nonempty sep s).
      * intros [= <- <-]. destruct (IH _ _ eq_refl) as [rest ->].
        by exists rest.
Qed.

(** Every piece of [s.split(sep)] is a substring of [s]. *)
Lemma split_substring (sep : N) (s line : str) :
  line ∈ split sep s → ∃ pre post, s = pre ++ line ++ post.
Proof.
  revert line. induction s as [|c s IH]; intros line; cbn [split].
  - intros ->%list_elem_of_singleton. by exists [], [].
  - destruct (c =? sep)%N.
    + intros [->|H]%elem_of_cons.
      * by exists [], (c :: s).
      * destruct (IH _ H) as (pre & post & ->). by exists (c :: pre), post.
    + destruct (split sep s) as [|l ls] eqn:Hs.
      * by destruct (split_nonempty sep s).
      * intros [->|H]%elem_of_cons.
        -- destruct (split_head_prefix _ _ _ _ Hs) as [rest ->].
           by exists [], rest.
        -- destruct (IH line) as (pre & post & ->); [by right|].
           by exists (c :: pre), post.
Qed.

(** A body without the not-found marker has no line with it. *)
Lemma no_marker_lines (body : str) :
  has_marker body = false →
  Forall (λ line, has_marker line = false) (split newline body).
Proof.
  intros Hbody. apply Forall_forall. intros line Hline.
  destruct (has_marker line) eqn:Hm; [|done].
  apply contains_iff in Hm as (p & q & ->).
  apply split_substring in Hline as (a & b & Hb).
  assert (has_marker body = true) as Ht; [|congruence].
  apply contains_iff. exists (a ++ p), (q ++ b).
  rewrite Hb. by rewrite <- !app_assoc.
Qed.

Lemma contains_cons (sub : str) (c : N) (s : str) :
  contains sub s = true → contains sub (c :: s) = true.
Proof. intros H. cbn [contains]. rewrite H. apply orb_true_r. Qed.

(** A string without the separator that starts [s] stays within the first
    piece of [s.split(sep)]. *)
Lemma split_head_app (sep : N) (sub post : str) :
  sep ∉ sub → ∃ l ls, split sep (sub ++ post) = (sub ++ l) :: ls.
Proof.
  induction sub as [|c sub IH]; intros Hsep.
  - simpl. destruct (split sep post) as [|l ls] eqn:Hs.
    + by destruct (split_nonempty sep post).
    + by exists l, ls.
  - apply not_elem_of_cons in Hsep as [Hc Hsub].
    destruct (IH Hsub) as (l & ls & Hs).
    change ((c :: sub) ++ post) with (c :: (sub ++ post)). cbn [split].
    destruct (N.eqb_spec c sep) as [->|_]; [done|].
    rewrite Hs. by exists l, ls.
Qed.

(** A substring without the separator lies within one piece. *)
Lemma contains_some_piece (sep : N) (sub s : str) :
  sep ∉ sub → contains sub s = true →
  Exists (λ line, contains sub line = true) (split sep s).
Proof.
  intros Hsep [pre [post ->]]%contains_iff.
  induction pre as [|c pre IH].
  - destruct (split_head_app sep sub post Hsep) as (l & ls & Hs).
    simpl. rewrite Hs. apply Exists_cons_hd.
    apply contains_iff. by exists [], l.
  - change ((c :: pre) ++ sub ++ post) with (c :: (pre ++ sub ++ post)).
    cbn [split]. destruct (c =? sep)%N.
    + by apply Exists_cons_tl.
    + destruct (split sep (pre ++ sub ++ post)) as [|l ls] eqn:Hs.
      * by apply Exists_nil in IH.
      * apply Exists_cons in IH as [H|H].
        -- apply Exists_cons_hd. by apply contains_cons.
        -- by apply Exists_cons_tl.
Qed.

(** The body has the not-found marker exactly when one of its lines
    has. *)
Lemma marker_in_body_iff (body : str) :
  has_marker body = true
  ↔ Exists (λ line, has_marker line = true) (split newline body).
Proof.
  split.
  - apply contains_some_piece. apply (bool_decide_unpack _). by vm_compute.
  - intros H. destruct (has_marker body) eqn:Hb; [done|].
    apply no_marker_lines in Hb. apply Exists_exists in H as (l & Hl & Hm).
    rewrite Forall_forall in Hb. by rewrite (Hb l Hl) in Hm.
Qed.

End BodyAndLines.

(** ** The remote fetcher *)

Section Fetcher.

Variable server : list str → str → response.

Lemma handle_response_ok key r :
  status_code r = 200%Z →
  Forall (λ line, has_marker line = false) (split newline (text r)) →
  handle_response key r = Return (block_text (split newline (text r))).
Proof.
  intros Hs Hl. unfold handle_response. rewrite Hs. simpl.
  by rewrite (scan_lines_no_marker _ _ _ Hl), foldl_scan_step.
Qed.

Lemma handle_response_not_found key r :
  status_code r = 200%Z →
  Exists (λ line, has_marker line = true) (split newline (text r)) →
  handle_response key r
  = Raise (NotFoundError (lit "No such publication") key).
Proof.
  intros Hs Hl. unfold handle_response. rewrite Hs. simpl.
  by rewrite (scan_lines_marker _ _ _ Hl).
Qed.

Lemma handle_response_401 key r :
  status_code r = 401%Z → handle_response key r = Raise AuthenticationException.
Proof. intros Hs. unfold handle_response. by rewrite Hs. Qed.

Lemma handle_response_other key r :
  status_code r ≠ 200%Z → status_code r ≠ 401%Z →
  handle_response key r
  = Raise (Exception (lit "Received HTTP status code "
                        ++ str_of_int (status_code r))).
Proof.
  intros H200 H401. unfold handle_response.
  destruct (Z.eqb_spec (status_code r) 401); [done|].
  destruct (Z.eqb_spec (status_code r) 200); done.
Qed.

(** With status 200, the outcome is a text or the not-found error. *)
Lemma handle_response_200 key r :
  status_code r = 200%Z →
  (∃ code, handle_response key r = Return code)
  ∨ handle_response key r
    = Raise (NotFoundError (lit "No such publication") key).
Proof.
  intros Hs.
  destruct (decide (Exists (λ line, has_marker line = true)
                      (split newline (text r)))) as [He|He].
  - right. by apply handle_response_not_found.
  - left. eexists. apply handle_response_ok; [done|].
    apply not_Exists_Forall in He; [|intros x; apply _].
    eapply Forall_impl; [exact He|]. simpl. intros x Hx.
    by destruct (has_marker x).
Qed.

End Fetcher.

(** C7 (as stated, refuted).  For the body ["<pre>\nfoo"], without the
    not-found marker, no line lies between a ["<pre>"] and a ["</pre>"]
    marker line, yet [mr_request] returns ["\nfoo"]. *)
Lemma mr_request_unclosed_block :
  has_marker unclosed_body = false
  ∧ spec_block_text (split newline unclosed_body) = []
  ∧ (mr_request unclosed_server (lit "MR1996800") world0).1
    = Return ([newline] ++ lit "foo")
  ∧ (mr_request unclosed_server (lit "MR1996800") world0).1
    ≠ Return (spec_block_text (split newline unclosed_body)).
Proof. split_and!; [by vm_compute..|]. vm_compute. discriminate. Qed.

(** C7 (amended).  For a response with status 200 whose body is without
    the not-found marker, [mr_request] raises nothing and returns the
    concatenation, each prefixed by a line break, of the lines that come
    after a ["<pre>"] marker line and before the next ["</pre>"] marker
    line or, when none follows, the end of the body; without a ["<pre>"]
    marker line the result is the empty string. *)
Theorem mr_request_block_text server key w :
  let r := server (requests w) key in
  let lines := split newline (text r) in
  status_code r = 200%Z →
  has_marker (text r) = false →
  mr_request server key w = (Return (block_text lines), sent [key] w)
  ∧ (Forall (λ line, is_open line = false) lines →
     mr_request server key w = (Return [], sent [key] w)).
Proof.
  intros r lines Hs Hm. unfold mr_request. fold r.
  rewrite (handle_response_ok key r Hs (no_marker_lines _ Hm)). fold lines.
  split; [done|]. intros Ho. by rewrite (block_text_no_open _ Ho).
Qed.

(** The extraction on a page of the sample service. *)
Lemma mr_request_block_text_witness :
  (status_code (sample_server [] (lit "MR1996800")) = 200%Z
   ∧ has_marker (text (sample_server [] (lit "MR1996800"))) = false)
  ∧ mr_request sample_server (lit "MR1996800") world0
    = (Return (sample_record (lit "MR1996800")),
       sent [lit "MR1996800"] world0).
Proof.
  split; [split; vm_compute; reflexivity|].
  exact (proj1 (mr_request_block_text sample_server (lit "MR1996800") world0
                  eq_refl eq_refl)).
Defined.

(** ** The result aggregator *)

Section Aggregator.

Variable server : list str → str → response.

Lemma sent_nil w : sent [] w = w.
Proof. destruct w. unfold sent. simpl. by rewrite app_nil_r. Qed.

Lemma sent_sent a b w : sent b (sent a w) = sent (a ++ b) w.
Proof. unfold sent. simpl. by rewrite app_assoc. Qed.

Lemma if_bool_decide_ext {A} (P Q : Prop) `{!Decision P, !Decision Q}
    (x y : A) :
  (P ↔ Q) →
  (if bool_decide P then x else y) = (if bool_decide Q then x else y).
Proof. intros H. by rewrite (bool_decide_ext P Q H). Qed.

Lemma validate_keys_spec key_list keys d :
  ∃ d', validate_keys key_list keys d = (keys ++ valid_keys key_list, d')
        ∧ ∀ k, d' !! k
               = if bool_decide (k ∈ key_list ∧ is_valid k = false)
                 then Some (Err (ReferenceErrorInfo_init invalid_message k))
                 else d !! k.
Proof.
  revert keys d. induction key_list as [|key rest IH]; intros keys d.
  - exists d. split; [by rewrite app_nil_r|]. intros k.
    rewrite bool_decide_eq_false_2; [done|]. intros [H _]. by apply elem_of_nil in H.
  - cbn [validate_keys]. fold invalid_message.
    unfold valid_keys. rewrite filter_cons.
    destruct (is_valid key) eqn:Hv.
    + destruct (IH (keys ++ [key]) d) as (d' & -> & Hd').
      rewrite decide_True by done.
      exists d'. split; [by rewrite <- app_assoc|].
      intros k. rewrite Hd'. apply if_bool_decide_ext. rewrite elem_of_cons.
      split; [intros [? ?]; split; [by right | done]|].
      intros [[->|?] ?]; [congruence | done].
    + destruct (IH keys (<[key := Err (ReferenceErrorInfo_init invalid_message key)]> d))
        as (d' & -> & Hd').
      rewrite decide_False by congruence.
      exists d'. split; [done|].
      intros k. rewrite Hd'. destruct (decide (k = key)) as [->|Hne].
      * rewrite lookup_insert_eq.
        rewrite (bool_decide_eq_true_2 (key ∈ key :: rest ∧ _)) by (split; [left|done]).
        by destruct (bool_decide _).
      * rewrite lookup_insert_ne by done.
        apply if_bool_decide_ext. rewrite elem_of_cons.
        split; [intros [? ?]; split; [by right | done]|].
        intros [[->|?] ?]; done.
Qed.

(** One turn of the loop that makes the calls. *)
Lemma fetch_keys_stored key rest d w b :
  item_of (handle_response key (server (requests w) key)) = Some b →
  fetch_keys server (key :: rest) d w
  = fetch_keys server rest (<[key := b]> d) (sent [key] w).
Proof.
  cbn [fetch_keys]. unfold mr_request.
  destruct (handle_response _ _) as [e|[]]; simpl; intros [= <-]; done.
Qed.

Lemma fetch_keys_raised key rest d w e :
  handle_response key (server (requests w) key) = Raise e →
  item_of (Raise e) = None →
  fetch_keys server (key :: rest) d w = (Raise e, sent [key] w).
Proof.
  cbn [fetch_keys]. unfold mr_request. intros ->. by destruct e.
Qed.

Lemma take_S_cons_requests w key rest n :
  requests (sent [key] w) ++ take n rest
  = requests w ++ take (S n) (key :: rest).
Proof. simpl. by rewrite <- app_assoc. Qed.

(** When the loop completes, every key was requested once, in order, and
    the dictionary holds for each of them what its last call gave. *)
Lemma fetch_keys_return keys d w d' w' :
  fetch_keys server keys d w = (Return d', w') →
  w' = sent keys w
  ∧ (∀ k, k ∉ keys → d' !! k = d !! k)
  ∧ (∀ k, k ∈ keys →
       ∃ n b, keys !! n = Some k
              ∧ (∀ m, n < m → keys !! m ≠ Some k)
              ∧ item_of (nth_fetch server w keys n k) = Some b
              ∧ d' !! k = Some b).
Proof.
  revert d w. induction keys as [|key rest IH]; intros d w.
  - cbn [fetch_keys]. intros [= <- <-]. rewrite sent_nil.
    split_and!; [done..|]. intros k Hk. by apply elem_of_nil in Hk.
  - destruct (item_of (handle_response key (server (requests w) key)))
      as [b|] eqn:Hb.
    + rewrite (fetch_keys_stored _ _ _ _ _ Hb). intros Hrun.
      destruct (IH _ _ Hrun) as (-> & Hout & Hin).
      split_and!.
      * by rewrite sent_sent.
      * intros k [Hne Hk]%not_elem_of_cons.
        by rewrite (Hout k Hk), lookup_insert_ne.
      * intros k Hk. destruct (decide (k ∈ rest)) as [Hr|Hr].
        -- destruct (Hin k Hr) as (n & b' & Hn & Hlast & Hitem & Hd').
           exists (S n), b'. split_and!; [done| |..|done].
           ++ intros [|m] Hm; [lia|]. simpl. apply Hlast. lia.
           ++ unfold nth_fetch in *. by rewrite <- take_S_cons_requests.
        -- apply elem_of_cons in Hk as [->|?]; [|done].
           exists 0, b. split_and!; [done| | |].
           ++ intros [|m] Hm; [lia|]. simpl. intros Hm'.
              apply Hr. by eapply list_elem_of_lookup_2.
           ++ unfold nth_fetch. simpl. by rewrite app_nil_r.
           ++ by rewrite (Hout key Hr), lookup_insert_eq.
    + destruct (handle_response key (server (requests w) key)) as [e|e] eqn:He;
        [done|].
      by rewrite (fetch_keys_raised _ _ _ _ _ He Hb).
Qed.

(** When every call is answered with status 200, the loop completes. *)
Lemma fetch_keys_total keys d w :
  (∀ n k, keys !! n = Some k →
          status_code (server (requests w ++ take n keys) k) = 200%Z) →
  ∃ d', fetch_keys server keys d w = (Return d', sent keys w).
Proof.
  revert d w. induction keys as [|key rest IH]; intros d w Hok.
  - exists d. by rewrite sent_nil.
  - assert (status_code (server (requests w) key) = 200%Z) as H0.
    { specialize (Hok 0 key eq_refl). simpl in Hok. by rewrite app_nil_r in Hok. }
    assert (∃ b, item_of (handle_response key (server (requests w) key)) = Some b)
      as [b Hb].
    { destruct (handle_response_200 key _ H0) as [[c ->]| ->]; by eexists. }
    rewrite (fetch_keys_stored _ _ _ _ _ Hb).
    destruct (IH (<[key := b]> d) (sent [key] w)) as [d' Hd'].
    { intros n k Hn. rewrite take_S_cons_requests. by apply (Hok (S n)). }
    exists d'. by rewrite Hd', sent_sent.
Qed.

(** Whatever happens, the requests made are an initial part of the valid
    keys. *)
Lemma fetch_keys_requests keys d w :
  ∃ j, (fetch_keys server keys d w).2 = sent (take j keys) w.
Proof.
  revert d w. induction keys as [|key rest IH]; intros d w.
  - exists 0. by rewrite sent_nil.
  - destruct (item_of (handle_response key (server (requests w) key)))
      as [b|] eqn:Hb.
    + rewrite (fetch_keys_stored _ _ _ _ _ Hb).
      destruct (IH (<[key := b]> d) (sent [key] w)) as [j ->].
      exists (S j). by rewrite sent_sent.
    + destruct (handle_response key (server (requests w) key)) as [e|e] eqn:He;
        [done|].
      rewrite (fetch_keys_raised _ _ _ _ _ He Hb). by exists 1.
Qed.

Lemma mr2bib_dict_unfold key_list w :
  mr2bib_dict server key_list w
  = fetch_keys server (valid_keys key_list)
      (validate_keys key_list [] ∅).2 w.
Proof.
  unfold mr2bib_dict.
  destruct (validate_keys_spec key_list [] ∅) as (d & -> & _). simpl.
  by destruct (valid_keys key_list).
Qed.

Lemma mr2bib_unfold id_list w :
  mr2bib server id_list w
  = match mr2bib_dict server id_list w with
    | (Return d, w') => (Return (lookup_or_not_found d <$> id_list), w')
    | (Raise e, w') => (Raise e, w')
    end.
Proof. reflexivity. Qed.

(** The only exception that the scan of a body raises. *)
Lemma scan_lines_raise key st lines e :
  scan_lines key st lines = Raise e → e = NotFoundError not_found_message key.
Proof.
  revert st. induction lines as [|line lines IH]; intros st; [done|].
  cbn [scan_lines]. destruct (has_marker line) eqn:Hl.
  - rewrite (scan_line_marker _ _ _ Hl). by intros [= <-].
  - rewrite (scan_line_no_marker _ _ _ Hl). apply IH.
Qed.

Lemma handle_response_raise_not_found key r m k :
  handle_response key r = Raise (NotFoundError m k) →
  m = not_found_message ∧ k = key.
Proof.
  unfold handle_response.
  destruct (status_code r =? 401)%Z; [done|].
  destruct (negb (status_code r =? 200)%Z); [done|].
  destruct (scan_lines _ _ _) as [[b c]|e] eqn:Hs; [done|].
  apply scan_lines_raise in Hs as ->. by intros [= <- <-].
Qed.

(** What [mr2bib] returns, when it returns. *)
Lemma mr2bib_return id_list w l w' :
  mr2bib server id_list w = (Return l, w') →
  w' = sent (valid_keys id_list) w
  ∧ ∃ f : str → bibitem,
      l = f <$> id_list
      ∧ ∀ k, k ∈ id_list →
          if is_valid k
          then ∃ n, valid_keys id_list !! n = Some k
                    ∧ (∀ m, n < m → valid_keys id_list !! m ≠ Some k)
                    ∧ item_of (nth_fetch server w (valid_keys id_list) n k)
                      = Some (f k)
          else f k = Err (ReferenceErrorInfo_init invalid_message k).
Proof.
  rewrite mr2bib_unfold, mr2bib_dict_unfold.
  destruct (validate_keys_spec id_list [] ∅) as (d0 & -> & Hd0). simpl.
  destruct (fetch_keys server (valid_keys id_list) d0 w) as [[d'|e] w1] eqn:Hf;
    [|done].
  intros [= <- <-].
  destruct (fetch_keys_return _ _ _ _ _ Hf) as (-> & Hout & Hin).
  split; [done|]. exists (lookup_or_not_found d'). split; [done|].
  intros k Hk. unfold lookup_or_not_found. destruct (is_valid k) eqn:Hv.
  - destruct (Hin k) as (n & b & Hn & Hlast & Hitem & ->).
    { by apply list_elem_of_filter. }
    by exists n.
  - rewrite Hout, Hd0, bool_decide_eq_true_2; [done..|].
    intros [Hv' _]%list_elem_of_filter. congruence.
Qed.

(** When every call is answered with status 200, [mr2bib] returns. *)
Lemma mr2bib_total id_list w :
  all_ok server w (valid_keys id_list) →
  ∃ l, mr2bib server id_list w = (Return l, sent (valid_keys id_list) w).
Proof.
  intros Hok. rewrite mr2bib_unfold, mr2bib_dict_unfold.
  destruct (fetch_keys_total _ (validate_keys id_list [] ∅).2 w Hok) as [d' ->].
  by eexists.
Qed.

(** The last call for a key is determined. *)
Lemma last_occurrence_unique (keys : list str) k n n' :
  keys !! n = Some k → (∀ m, n < m → keys !! m ≠ Some k) →
  keys !! n' = Some k → (∀ m, n' < m → keys !! m ≠ Some k) →
  n = n'.
Proof.
  intros Hn Hlast Hn' Hlast'.
  destruct (Nat.lt_trichotomy n n') as [Hlt|[Heq|Hgt]]; [|done|].
  - by destruct (Hlast n' Hlt).
  - by destruct (Hlast' n Hgt).
Qed.

End Aggregator.

(** C5.  When no call fails fatally, [mr2bib] returns a list with one
    entry per input identifier, at the position of that identifier, and
    the entry is the one of that identifier: the error for an invalid
    one, the not-found error or the record according to the answer for a
    valid one.  Duplicates, invalid identifiers and identifiers that were
    not found have their entry like the others. *)
Theorem mr2bib_one_entry_per_identifier server id_list w :
  all_ok server w (valid_keys id_list) →
  ∃ l, mr2bib server id_list w = (Return l, sent (valid_keys id_list) w)
       ∧ length l = length id_list
       ∧ ∀ i k, id_list !! i = Some k →
           ∃ b, l !! i = Some b
                ∧ entry_for server w (valid_keys id_list) k b.
Proof.
  intros Hok. destruct (mr2bib_total _ _ _ Hok) as [l Hl].
  exists l. split; [done|].
  destruct (mr2bib_return _ _ _ _ _ Hl) as (_ & f & -> & Hf).
  split; [by rewrite length_fmap|].
  intros i k Hi. exists (f k). split.
  { by rewrite list_lookup_fmap, Hi. }
  specialize (Hf k (list_elem_of_lookup_2 _ _ _ Hi)).
  unfold entry_for. destruct (is_valid k) eqn:Hv; [|exact Hf].
  destruct Hf as (n & Hn & Hlast & Hitem).
  exists n. split_and!; [done..|]. cbv zeta.
  unfold nth_fetch in Hitem. pose proof (Hok n k Hn) as H200.
  destruct (has_marker _) eqn:Hm.
  - apply marker_in_body_iff in Hm.
    rewrite (handle_response_not_found k _ H200 Hm) in Hitem.
    by injection Hitem.
  - rewrite (handle_response_ok k _ H200 (no_marker_lines _ Hm)) in Hitem.
    by injection Hitem.
Qed.

(** C3 (amended).  When no call fails fatally, every identifier is
    processed, and a valid identifier whose response (the last one, when
    the identifier is requested several times) has a line with the
    not-found marker gets an error entry with the message ["No such
    publication"]. *)
Theorem mr2bib_not_found server id_list w :
  all_ok server w (valid_keys id_list) →
  ∃ l, mr2bib server id_list w = (Return l, sent (valid_keys id_list) w)
       ∧ length l = length id_list
       ∧ ∀ i k n,
           id_list !! i = Some k →
           valid_keys id_list !! n = Some k →
           (∀ m, n < m → valid_keys id_list !! m ≠ Some k) →
           Exists (λ line, has_marker line = true)
             (split newline
                (text (server (requests w ++ take n (valid_keys id_list)) k))) →
           l !! i = Some (Err (ReferenceErrorInfo_init
                                 (lit "No such publication") k)).
Proof.
  intros Hok. destruct (mr2bib_total _ _ _ Hok) as [l Hl].
  exists l. split; [done|].
  destruct (mr2bib_return _ _ _ _ _ Hl) as (_ & f & -> & Hf).
  split; [by rewrite length_fmap|].
  intros i k n Hi Hn Hlast Hmark.
  rewrite list_lookup_fmap, Hi. simpl. f_equal.
  specialize (Hf k (list_elem_of_lookup_2 _ _ _ Hi)).
  assert (is_valid k = true) as Hv.
  { by apply list_elem_of_lookup_2, list_elem_of_filter in Hn as [? _]. }
  rewrite Hv in Hf. destruct Hf as (n' & Hn' & Hlast' & Hitem).
  assert (n' = n) as -> by eauto using last_occurrence_unique.
  unfold nth_fetch in Hitem.
  rewrite (handle_response_not_found k _ (Hok n k Hn) Hmark) in Hitem.
  by injection Hitem.
Qed.

(** C4 (amended).  An identifier that fails the validity check is given
    its error entry, with the message ["Invalid Mathematical Reviews
    identifier"], by the validation loop; no request is made for it,
    whatever happens to the other identifiers; the entry is at its place
    in every list that [mr2bib] returns, and [mr2bib] returns when no call
    fails fatally. *)
Theorem mr2bib_invalid_identifier server id_list w i k :
  id_list !! i = Some k →
  is_valid k = false →
  (validate_keys id_list [] ∅).2 !! k
  = Some (Err (ReferenceErrorInfo_init
                 (lit "Invalid Mathematical Reviews identifier") k))
  ∧ (∃ reqs, (mr2bib server id_list w).2 = sent reqs w ∧ k ∉ reqs)
  ∧ (∀ l w', mr2bib server id_list w = (Return l, w') →
             l !! i = Some (Err (ReferenceErrorInfo_init
                                   (lit "Invalid Mathematical Reviews identifier")
                                   k)))
  ∧ (all_ok server w (valid_keys id_list) →
     ∃ l, mr2bib server id_list w = (Return l, sent (valid_keys id_list) w)).
Proof.
  intros Hi Hv. pose proof (list_elem_of_lookup_2 _ _ _ Hi) as Hk.
  split_and!.
  - destruct (validate_keys_spec id_list [] ∅) as (d0 & -> & Hd0). simpl.
    by rewrite Hd0, bool_decide_eq_true_2.
  - rewrite mr2bib_unfold, mr2bib_dict_unfold.
    destruct (fetch_keys_requests server (valid_keys id_list)
                (validate_keys id_list [] ∅).2 w) as [j Hj].
    exists (take j (valid_keys id_list)). split.
    + by destruct (fetch_keys _ _ _ _) as [[d|e] w1].
    + intros Hin. apply (subseteq_take j (valid_keys id_list) k) in Hin.
      apply list_elem_of_filter in Hin as [Hv' _]. congruence.
  - intros l w' Hl.
    destruct (mr2bib_return _ _ _ _ _ Hl) as (_ & f & -> & Hf).
    specialize (Hf k Hk). rewrite Hv in Hf.
    rewrite list_lookup_fmap, Hi. simpl. by rewrite Hf.
  - apply mr2bib_total.
Qed.

Ltac all_ok_by_cases :=
  let n := fresh "n" in
  let k := fresh "k" in
  let Hn := fresh "Hn" in
  intros n k Hn; vm_compute in Hn;
  repeat (destruct n as [|n];
          [injection Hn as <-; vm_compute; reflexivity | simpl in Hn]);
  discriminate Hn.

Lemma sample_ids_all_ok : all_ok sample_server world0 (valid_keys sample_ids).
Proof. all_ok_by_cases. Defined.

(** The result list for the sample batch: the errors of the invalid and
    of the unknown identifier, then the record, twice. *)
Lemma mr2bib_one_entry_per_identifier_witness :
  all_ok sample_server world0 (valid_keys sample_ids)
  ∧ (∃ l, mr2bib sample_server sample_ids world0
          = (Return l, sent (valid_keys sample_ids) world0)
          ∧ length l = length sample_ids
          ∧ ∀ i k, sample_ids !! i = Some k →
              ∃ b, l !! i = Some b
                   ∧ entry_for sample_server world0 (valid_keys sample_ids)
                       k b)
  ∧ mr2bib sample_server sample_ids world0
    = (Return sample_result, sent (valid_keys sample_ids) world0).
Proof.
  split; [exact sample_ids_all_ok|]. split.
  - exact (mr2bib_one_entry_per_identifier sample_server sample_ids world0
             sample_ids_all_ok).
  - by vm_compute.
Defined.

(** C3 (as stated, refuted).  ["MR0000000"] is valid and the response to
    it has a line with the not-found marker, but the message of its error
    entry is not ["Not found"]. *)
Lemma not_found_message_is_not_Not_found :
  is_valid (lit "MR0000000") = true
  ∧ Exists (λ line, has_marker line = true)
      (split newline (text (sample_server [] (lit "MR0000000"))))
  ∧ ¬ ∃ e w', mr2bib sample_server [lit "MR0000000"] world0
              = (Return [Err e], w')
              ∧ message e = lit "Not found".
Proof.
  split_and!.
  - by vm_compute.
  - apply Exists_cons_tl, Exists_cons_hd. by vm_compute.
  - intros (e & w' & Hrun & Hm). vm_compute in Hrun.
    injection Hrun as <- _. vm_compute in Hm. discriminate Hm.
Qed.

(** The not-found entry of the sample batch. *)
Lemma mr2bib_not_found_witness :
  all_ok sample_server world0 (valid_keys sample_ids)
  ∧ ∃ l, mr2bib sample_server sample_ids world0
         = (Return l, sent (valid_keys sample_ids) world0)
         ∧ length l = length sample_ids
         ∧ l !! 1 = Some (Err (ReferenceErrorInfo_init
                                 (lit "No such publication")
                                 (lit "MR0000000"))).
Proof.
  split; [exact sample_ids_all_ok|].
  destruct (mr2bib_not_found sample_server sample_ids world0
              sample_ids_all_ok) as (l & Hrun & Hlen & Hnf).
  exists l. split_and!; [done..|].
  apply (Hnf 1 (lit "MR0000000") 0); [done|done| |].
  - intros [|[|[|m]]] Hm; [lia|by vm_compute..].
  - apply Exists_cons_tl, Exists_cons_hd. by vm_compute.
Defined.

(** C4 (as stated, refuted).  ["bad"] fails the validity check, but the
    message of its error entry is not ["Invalid identifier"]. *)
Lemma invalid_message_is_not_Invalid_identifier :
  is_valid (lit "bad") = false
  ∧ ¬ ∃ e w', mr2bib sample_server [lit "bad"] world0 = (Return [Err e], w')
              ∧ message e = lit "Invalid identifier".
Proof.
  split; [by vm_compute|].
  intros (e & w' & Hrun & Hm). vm_compute in Hrun.
  injection Hrun as <- _. vm_compute in Hm. discriminate Hm.
Qed.

(** The invalid identifier of the sample batch. *)
Lemma mr2bib_invalid_identifier_witness :
  (sample_ids !! 0 = Some (lit "bad") ∧ is_valid (lit "bad") = false)
  ∧ (∃ reqs, (mr2bib sample_server sample_ids world0).2 = sent reqs world0
             ∧ lit "bad" ∉ reqs)
  ∧ ∀ l w', mr2bib sample_server sample_ids world0 = (Return l, w') →
            l !! 0 = Some (Err (ReferenceErrorInfo_init
                                  (lit "Invalid Mathematical Reviews identifier")
                                  (lit "bad"))).
Proof.
  assert (sample_ids !! 0 = Some (lit "bad")) as Hi by reflexivity.
  assert (is_valid (lit "bad") = false) as Hv by (vm_compute; reflexivity).
  split; [done|].
  destruct (mr2bib_invalid_identifier sample_server sample_ids world0 0
              (lit "bad") Hi Hv) as (_ & Hreq & Hret & _).
  done.
Defined.

(** ** The command line front end *)

Section FrontEnd.

Variable server : list str → str → response.
Variable linesep : str.
Variable can_encode : str → bool.

Lemma create_output_step_spec self b :
  create_output_step self b
  = {| args := args self;
       output := output self ++ output_of (args self) b;
       messages := messages self ++ message_of (args self) b;
       error_count :=
         error_count self
         + (if isinstance_ReferenceErrorInfo b then 1 else 0);
       code := code self |}.
Proof.
  destruct self as [[ids cm q v] o m n c], b as [r|e].
  - cbn. by rewrite app_nil_r, Z.add_0_r.
  - destruct cm, q; cbn; by rewrite ?app_nil_r.
Qed.

Lemma create_output_spec self bib :
  create_output self bib
  = {| args := args self;
       output := output self ++ flat_map (output_of (args self)) bib;
       messages := messages self ++ flat_map (message_of (args self)) bib;
       error_count := error_count self + Z.of_nat (count_errors bib);
       code := code self |}.
Proof.
  revert self. induction bib as [|b bib IH]; intros self.
  - destruct self. unfold create_output, count_errors. simpl.
    by rewrite !app_nil_r, Z.add_0_r.
  - unfold create_output in *. cbn [foldl flat_map].
    rewrite IH, create_output_step_spec. cbn [args output messages error_count code].
    unfold count_errors. rewrite filter_cons, <- !app_assoc.
    f_equal. destruct b; simpl; lia.
Qed.

Lemma count_errors_le bib : count_errors bib ≤ length bib.
Proof. apply length_filter. Qed.

(** [Cli.run] when [mr2bib] returns. *)
Lemma run_return self w bib w' :
  mr2bib server (args_id (args self)) w = (Return bib, w') →
  run server self w
  = (Return (set_code (tally_errors (create_output self bib) bib).2
               (tally_errors (create_output self bib) bib).1), w').
Proof.
  intros Hb. unfold run, try_except, mbind, io_bind. rewrite Hb.
  by destruct (tally_errors _ _).
Qed.

(** [Cli.run] when [mr2bib] raises: only [HTTPError] becomes a
    [FatalError]. *)
Lemma run_raise self w e w' :
  mr2bib server (args_id (args self)) w = (Raise e, w') →
  run server self w
  = (Raise (match e with
            | HTTPError c =>
                FatalError (lit "HTTP Connection Error: " ++ str_of_int c)
            | _ => e
            end), w').
Proof.
  intros Hb. unfold run, try_except, mbind, io_bind. rewrite Hb.
  by destruct e.
Qed.

(** [Cli.print_output]: it returns, with the code and the requests as
    they were, when the output can be written; otherwise the encoding
    error of the fallback leaves it, and nothing was written. *)
Lemma print_output_cases self w :
  if output_writable linesep can_encode (output self) then
    ∃ self' w', print_output linesep can_encode self w = (Return self', w')
                ∧ code self' = code self ∧ requests w' = requests w
  else
    print_output linesep can_encode self w = (Raise UnicodeEncodeError, w).
Proof.
  unfold print_output, output_writable.
  destruct (output self) as [|o os]; [by eexists _, _|].
  destruct (can_encode _); [by eexists _, _|]. simpl.
  destruct (utf8_encodable _); [|done].
  destruct (verbose _); by eexists _, _.
Qed.

Lemma print_messages_code self w :
  ∃ self' w', print_messages linesep self w = (Return self', w')
              ∧ code self' = code self ∧ requests w' = requests w.
Proof.
  unfold print_messages. destruct (messages self); by eexists _, _.
Qed.

(** The process when [Cli.run] returns: the exit status is the code it
    has set when the output can be written, and 1 when it cannot, by the
    exception that leaves [print_output]. *)
Lemma script_after_run parsed stdin w cli' w' :
  run server (Cli_init parsed stdin) w = (Return cli', w') →
  (script server linesep can_encode parsed stdin w).1
  = (if output_writable linesep can_encode (output cli') then code cli'
     else 1%Z)
  ∧ requests (script server linesep can_encode parsed stdin w).2
    = requests w'.
Proof.
  intros Hrun. unfold script, main, try_except, mbind, io_bind.
  rewrite Hrun. cbn [mret io_ret].
  pose proof (print_output_cases cli' w') as Hp.
  destruct (output_writable _ _ _).
  - destruct Hp as (c1 & w1 & -> & Hc1 & Hw1).
    destruct (print_messages_code c1 w1) as (c2 & w2 & -> & Hc2 & Hw2).
    simpl. split; congruence.
  - by rewrite Hp.
Qed.

(** The process when an exception other than [HTTPError] and
    [FatalError] leaves [mr2bib]: nothing catches it. *)
Lemma script_uncaught parsed stdin w e w' :
  mr2bib server (args_id (args (Cli_init parsed stdin))) w = (Raise e, w') →
  (∀ c, e ≠ HTTPError c) → (∀ m, e ≠ FatalError m) →
  script server linesep can_encode parsed stdin w
  = (1%Z, write_stderr (Traceback e) w').
Proof.
  intros Hb Hh Hf. unfold script, main, try_except, mbind, io_bind.
  rewrite (run_raise _ _ _ _ Hb).
  destruct e; try done; [by destruct (Hh getcode) | by destruct (Hf message0)].
Qed.

End FrontEnd.

Section Report.

Lemma flat_map_message_of_quiet a bib :
  quiet a = true → flat_map (message_of a) bib = [].
Proof.
  intros Hq. induction bib as [|[r|e] bib IH]; [done|done|].
  cbn [flat_map message_of]. by rewrite Hq, IH.
Qed.

Lemma flat_map_output_of_comments a bib :
  comments a = true → flat_map (output_of a) bib = bibtex <$> bib.
Proof.
  intros Hc. induction bib as [|[r|e] bib IH]; [done|..];
    cbn [flat_map output_of]; rewrite ?Hc, IH; done.
Qed.

Lemma Cli_init_fields parsed stdin :
  let cli := Cli_init parsed stdin in
  comments (args cli) = comments parsed
  ∧ verbose (args cli) = verbose parsed
  ∧ quiet (args cli)
    = (if comments parsed && negb (verbose parsed) then true else quiet parsed)
  ∧ output cli = [] ∧ messages cli = []
  ∧ error_count cli = 0%Z ∧ code cli = 0%Z.
Proof.
  destruct parsed as [ids cm q v]. unfold Cli_init. cbn.
  destruct (length ids =? 0)%nat; cbn; destruct (cm && negb v); done.
Qed.

End Report.

(** C8.  With the comments flag and without the verbose flag, quiet is
    forced on; [create_output] then leaves the message buffer without any
    per-error line, and puts into the output buffer one line per entry,
    which for an error entry is its ["@comment{id: message}"] line. *)
Theorem comments_force_quiet parsed stdin bib :
  comments parsed = true →
  verbose parsed = false →
  let cli := Cli_init parsed stdin in
  quiet (args cli) = true
  ∧ messages (create_output cli bib) = []
  ∧ output (create_output cli bib) = bibtex <$> bib
  ∧ ∀ e, Err e ∈ bib →
         lit "@comment{" ++ id e ++ lit ": " ++ message e ++ lit "}"
         ∈ output (create_output cli bib).
Proof.
  intros Hc Hv cli.
  destruct (Cli_init_fields parsed stdin) as (Hc' & _ & Hq & Ho & Hm & _).
  fold cli in Hc', Hq, Ho, Hm. rewrite Hc, Hv in Hq. simpl in Hq.
  rewrite Hc in Hc'. rewrite create_output_spec.
  cbn [messages output]. rewrite Ho, Hm.
  rewrite (flat_map_message_of_quiet _ _ Hq).
  rewrite (flat_map_output_of_comments _ _ Hc').
  split_and!; [done..|].
  intros e He. simpl.
  by apply (list_elem_of_fmap_2 bibtex) in He.
Qed.

Lemma comments_force_quiet_witness :
  (comments comments_args = true ∧ verbose comments_args = false)
  ∧ quiet (args (Cli_init comments_args [])) = true
  ∧ messages (create_output (Cli_init comments_args []) error_and_record) = []
  ∧ output (create_output (Cli_init comments_args []) error_and_record)
    = [ lit "@comment{bad: Invalid Mathematical Reviews identifier}";
        sample_record (lit "MR1996800") ].
Proof.
  split; [done|].
  destruct (comments_force_quiet comments_args [] error_and_record
              eq_refl eq_refl) as (Hq & Hm & Ho & _).
  done.
Defined.

(** ** Exit codes *)

(** C9.  With no identifier at all (no positional argument and an empty
    standard input), whatever the flags and the environment, no request
    is made and the run counts zero errors; yet the code is 2, and the
    message ["No successful matches"] is written to standard error. *)
Theorem empty_batch_exits_2 server linesep can_encode c q v w :
  let parsed :=
    {| args_id := []; comments := c; quiet := q; verbose := v |} in
  ∃ cli',
    run server (Cli_init parsed []) w = (Return cli', w)
    ∧ error_count cli' = 0%Z
    ∧ messages cli' = [lit "No successful matches"]
    ∧ code cli' = 2%Z
    ∧ script server linesep can_encode parsed [] w
      = (2%Z, write_stderr (Write (lit "No successful matches" ++ linesep)) w).
Proof.
  intros parsed.
  set (cli' := set_code 2 (messages_append (lit "No successful matches")
                             (Cli_init parsed []))).
  assert (run server (Cli_init parsed []) w = (Return cli', w)) as Hrun.
  { subst cli' parsed. destruct c, q, v; reflexivity. }
  exists cli'. split_and!; [done..|].
  unfold script, main, try_except, mbind, io_bind. rewrite Hrun.
  unfold print_output, print_messages, mbind, io_bind, act, mret, io_ret.
  cbn. by rewrite app_nil_r.
Qed.

(** C2 (as stated, refuted).  For the empty batch zero results are
    errors, yet the exit status is not 0. *)
Lemma empty_batch_status_is_not_0 :
  mr2bib sample_server [] world0 = (Return [], world0)
  ∧ count_errors [] = 0
  ∧ (script sample_server [newline] (λ _, true)
       {| args_id := []; comments := false; quiet := false;
          verbose := false |} [] world0).1 ≠ 0%Z.
Proof. split_and!; [done..|]. by vm_compute. Qed.

(** C2 (amended).  When no call fails fatally and the output can be
    written, the exit status is the code that [tally_errors] computes
    from the result list: 2 with ["No successful matches"] appended to the
    messages when all results are errors, 1 with ["N of M matched
    succesfully"] appended when some but not all are, and 0 with nothing
    appended when none is and the batch is not empty. *)
Theorem exit_code_policy server linesep can_encode parsed stdin w :
  let cli := Cli_init parsed stdin in
  let ids := args_id (args cli) in
  all_ok server w (valid_keys ids) →
  ∃ bib cli',
    mr2bib server ids w = (Return bib, sent (valid_keys ids) w)
    ∧ length bib = length ids
    ∧ run server cli w = (Return cli', sent (valid_keys ids) w)
    ∧ output cli' = flat_map (output_of (args cli)) bib
    ∧ (output_writable linesep can_encode (output cli') = true →
       (script server linesep can_encode parsed stdin w).1 = code cli')
    ∧ (count_errors bib = length bib →
       code cli' = 2%Z
       ∧ messages cli'
         = flat_map (message_of (args cli)) bib
           ++ [lit "No successful matches"])
    ∧ (0 < count_errors bib < length bib →
       code cli' = 1%Z
       ∧ messages cli'
         = flat_map (message_of (args cli)) bib
           ++ [str_of_int (Z.of_nat (length bib)
                           - Z.of_nat (count_errors bib))
               ++ lit " of " ++ str_of_int (Z.of_nat (length bib))
               ++ lit " matched succesfully"])
    ∧ (count_errors bib = 0 → length bib ≠ 0 →
       code cli' = 0%Z
       ∧ messages cli' = flat_map (message_of (args cli)) bib).
Proof.
  intros cli ids Hok.
  destruct (mr2bib_total _ _ _ Hok) as [bib Hbib].
  assert (length bib = length ids) as Hlen.
  { destruct (mr2bib_return _ _ _ _ _ Hbib) as (_ & f & -> & _).
    by rewrite length_fmap. }
  pose proof (run_return server cli w bib _ Hbib) as Hrun.
  eexists bib, _. split_and!; [done|done|exact Hrun|..].
  { destruct (Cli_init_fields parsed stdin) as (_ & _ & _ & Ho & _).
    fold cli in Ho. unfold tally_errors.
    repeat case_match; cbn [fst snd set_code messages_append output];
      rewrite create_output_spec; cbn [output]; by rewrite Ho. }
  { intros Hw. destruct (script_after_run _ linesep can_encode _ _ _ _ _ Hrun)
      as [Hst _].
    by rewrite Hst, Hw. }
  all: destruct (Cli_init_fields parsed stdin) as (_ & _ & _ & _ & Hm & He & _);
    fold cli in Hm, He;
    unfold tally_errors; rewrite create_output_spec;
    cbn [args messages error_count]; rewrite Hm, He, Z.add_0_l; fold ids;
    rewrite <- Hlen.
  - intros ->. by rewrite Z.eqb_refl.
  - intros [H1 H2].
    destruct (Z.eqb_spec (Z.of_nat (count_errors bib)) (Z.of_nat (length bib)));
      [lia|].
    destruct (Z.gtb_spec (Z.of_nat (count_errors bib)) 0); [|lia].
    done.
  - intros H0 HM. rewrite H0.
    destruct (Z.eqb_spec (Z.of_nat 0) (Z.of_nat (length bib))); [lia|].
    destruct (Z.gtb_spec (Z.of_nat 0) 0); [lia|].
    done.
Qed.

Lemma exit_code_policy_witness :
  all_ok sample_server world0 (valid_keys sample_ids)
  ∧ (script sample_server [newline] (λ _, true) plain_args [] world0).1 = 1%Z
  ∧ ∃ cli',
      run sample_server (Cli_init plain_args []) world0
      = (Return cli', sent (valid_keys sample_ids) world0)
      ∧ messages cli'
        = [ lit "Error: Invalid Mathematical Reviews identifier (bad)";
            lit "Error: No such publication (MR0000000)";
            lit "2 of 4 matched succesfully" ].
Proof.
  split; [exact sample_ids_all_ok|].
  destruct (exit_code_policy sample_server [newline] (λ _, true) plain_args []
              world0 sample_ids_all_ok)
    as (bib & cli' & Hbib & _ & Hrun & _ & Hstatus & _ & Hsome & _).
  vm_compute in Hbib. injection Hbib as <-.
  destruct Hsome as [Hcode Hmsg]; [vm_compute; lia|].
  split.
  - rewrite Hstatus; [exact Hcode|].
    unfold output_writable. by destruct (output cli').
  - exists cli'. split; [exact Hrun|]. exact Hmsg.
Defined.

(** ** Fatal failures *)

Section Fatal.

Variable server : list str → str → response.
Variable linesep : str.
Variable can_encode : str → bool.

(** The loop stops at the first call whose exception it does not
    handle; the keys after it are not requested. *)
Lemma fetch_keys_fatal pre k post d w e :
  all_ok server w pre →
  handle_response k (server (requests w ++ pre) k) = Raise e →
  item_of (Raise e) = None →
  fetch_keys server (pre ++ k :: post) d w = (Raise e, sent (pre ++ [k]) w).
Proof.
  revert d w. induction pre as [|p pre IH]; intros d w Hok He Hnone.
  - rewrite app_nil_r in He. by apply fetch_keys_raised.
  - assert (status_code (server (requests w) p) = 200%Z) as H0.
    { specialize (Hok 0 p eq_refl). simpl in Hok. by rewrite app_nil_r in Hok. }
    assert (∃ b, item_of (handle_response p (server (requests w) p)) = Some b)
      as [b Hb].
    { destruct (handle_response_200 p _ H0) as [[c ->]| ->]; by eexists. }
    change ((p :: pre) ++ k :: post) with (p :: (pre ++ k :: post)).
    rewrite (fetch_keys_stored _ _ _ _ _ _ Hb).
    rewrite (IH (<[p := b]> d) (sent [p] w)); [by rewrite sent_sent|..|done].
    + intros n k' Hn. rewrite take_S_cons_requests. by apply (Hok (S n)).
    + simpl. by rewrite <- app_assoc.
Qed.

(** The process when a call is answered with a status other than 200 and
    401, after calls that went well: the exception leaves [main], the
    interpreter reports it, and the exit status is 1. *)
Lemma script_transport_failure parsed stdin w pre k post :
  let ids := args_id (args (Cli_init parsed stdin)) in
  let s := status_code (server (requests w ++ pre) k) in
  valid_keys ids = pre ++ k :: post →
  all_ok server w pre →
  s ≠ 200%Z → s ≠ 401%Z →
  script server linesep can_encode parsed stdin w
  = (1%Z,
     write_stderr
       (Traceback (Exception (lit "Received HTTP status code "
                                ++ str_of_int s)))
       (sent (pre ++ [k]) w)).
Proof.
  intros ids s Hkeys Hok H200 H401.
  apply script_uncaught; [|done..].
  rewrite mr2bib_unfold, mr2bib_dict_unfold. fold ids. rewrite Hkeys.
  rewrite (fetch_keys_fatal pre k post _ w
             (Exception (lit "Received HTTP status code " ++ str_of_int s)));
    [done|done| |done].
  by apply handle_response_other.
Qed.

End Fatal.

(** C1 (the code at the failing input).  The first call succeeds, the
    second is answered with status 500: the third identifier is not
    requested, nothing is printed, the exception is reported with its
    message, which carries the status code, but the exit status is 1. *)
Theorem http_500_exit_status linesep can_encode c q v :
  script sample_server linesep can_encode
    {| args_id := failing_ids; comments := c; quiet := q; verbose := v |}
    [] world0
  = (1%Z,
     {| requests := [lit "MR1996800"; lit "MR5000000"];
        stdout := [];
        stderr := [Traceback (Exception
                                (lit "Received HTTP status code 500"))] |}).
Proof. destruct c, q, v; vm_compute; reflexivity. Qed.

(** ** Further properties of the fetcher *)

Section FetcherOutcome.

Variable server : list str → str → response.

End FetcherOutcome.

(** X1.  [mr_request] always logs one request, and its outcome is decided
    by the status and by the presence of the not-found marker anywhere in
    the body: 401 gives [AuthenticationException], any other status than
    200 the exception with the status code, a body with the marker
    [NotFoundError] whatever its blocks, and any other body the text of
    its blocks. *)
Theorem mr_request_outcome server key w :
  mr_request server key w
  = (let r := server (requests w) key in
     if (status_code r =? 401)%Z then Raise AuthenticationException
     else if negb (status_code r =? 200)%Z then
       Raise (Exception (lit "Received HTTP status code "
                           ++ str_of_int (status_code r)))
     else if has_marker (text r) then
       Raise (NotFoundError (lit "No such publication") key)
     else Return (block_text (split newline (text r))),
     sent [key] w).
Proof.
  unfold mr_request. f_equal. cbv zeta.
  destruct (Z.eqb_spec (status_code (server (requests w) key)) 401) as [H|H].
  { by apply handle_response_401. }
  destruct (Z.eqb_spec (status_code (server (requests w) key)) 200) as [H2|H2];
    simpl.
  - destruct (has_marker _) eqn:Hm.
    + apply handle_response_not_found; [done|]. by apply marker_in_body_iff.
    + apply handle_response_ok; [done|]. by apply no_marker_lines.
  - by apply handle_response_other.
Qed.

Section SingleBlock.

Lemma is_open_not_close line : is_open line = true → is_close line = false.
Proof.
  unfold is_open, is_close. rewrite bool_decide_eq_true. intros ->.
  by vm_compute.
Qed.

(** Outside a block, lines that do not open one change nothing. *)
Lemma foldl_scan_step_outside code lines :
  Forall (λ line, is_open line = false) lines →
  foldl scan_step (false, code) lines = (false, code).
Proof.
  induction 1 as [|line lines Hl _ IH]; [done|].
  cbn [foldl]. unfold scan_step at 2. cbn [fst snd]. rewrite Hl.
  by destruct (is_close line).
Qed.

(** Inside a block, lines that do not close it are all appended. *)
Lemma foldl_scan_step_inside code lines :
  Forall (λ line, is_close line = false) lines →
  foldl scan_step (true, code) lines
  = (true, code ++ concat ((λ line, newline :: line) <$> lines)).
Proof.
  intros H. revert code. induction H as [|line lines Hl _ IH]; intros code.
  - simpl. by rewrite app_nil_r.
  - cbn [foldl]. unfold scan_step at 2. cbn [fst snd]. rewrite Hl.
    assert ((if is_open line then true else true) = true) as ->
      by (by destruct (is_open line)).
    rewrite IH. f_equal. rewrite fmap_cons, concat_cons.
    by rewrite <- !app_assoc.
Qed.

End SingleBlock.

(** X2.  For a page with the usual shape (lines without a ["<pre>"]
    marker, a ["<pre>"] marker line, lines without a ["</pre>"] marker, a
    ["</pre>"] marker line, lines without a ["<pre>"] marker), answered
    with status 200 and without the not-found marker, [mr_request] returns
    the lines between the two markers, each prefixed by a line break; the
    lines before and after the block are dropped. *)
Theorem mr_request_single_block server key w pre o body c post :
  status_code (server (requests w) key) = 200%Z →
  has_marker (text (server (requests w) key)) = false →
  split newline (text (server (requests w) key))
  = pre ++ [o] ++ body ++ [c] ++ post →
  Forall (λ line, is_open line = false) pre →
  is_open o = true →
  Forall (λ line, is_close line = false) body →
  is_close c = true →
  Forall (λ line, is_open line = false) post →
  mr_request server key w
  = (Return (concat ((λ line, newline :: line) <$> body)), sent [key] w).
Proof.
  intros Hs Hm Hlines Hpre Ho Hbody Hc Hpost.
  unfold mr_request.
  rewrite (handle_response_ok key _ Hs (no_marker_lines _ Hm)).
  do 2 f_equal.
  transitivity (foldl scan_step (false, [])
                  (split newline (text (server (requests w) key)))).2.
  { by rewrite foldl_scan_step. }
  rewrite Hlines, !foldl_app.
  rewrite (foldl_scan_step_outside _ _ Hpre). cbn [foldl].
  assert (scan_step (false, []) o = (true, [])) as ->.
  { unfold scan_step. cbn [fst snd]. rewrite Ho.
    by destruct (is_close o). }
  rewrite (foldl_scan_step_inside _ _ Hbody).
  assert (∀ code, scan_step (true, code) c = (false, code)) as ->.
  { intros code. unfold scan_step. cbn [fst snd]. rewrite Hc.
    destruct (is_open c) eqn:Hoc; [|done].
    apply is_open_not_close in Hoc. congruence. }
  by rewrite (foldl_scan_step_outside _ _ Hpost).
Qed.

(** The page of the sample service for ["MR1996800"]. *)
Lemma mr_request_single_block_witness :
  mr_request sample_server MR1996800 world0
  = (Return (concat ((λ line, newline :: line)
                       <$> [lit "@article {MR1996800,"; lit "}"])),
     sent [MR1996800] world0).
Proof.
  apply (mr_request_single_block sample_server MR1996800 world0
           [lit "<html>"] (lit "  <pre>")
           [lit "@article {MR1996800,"; lit "}"]
           (lit "</pre>") [lit "</html>"]).
  1, 2, 3, 5, 7: by vm_compute.
  all: repeat (apply Forall_cons_2; [by vm_compute|]); apply Forall_nil_2.
Defined.

(** ** Further properties of the aggregator *)

Section AggregatorOutcome.

Variable server : list str → str → response.

Lemma handle_response_fatal key r :
  status_code r ≠ 200%Z →
  handle_response key r = Raise (fatal_exn (status_code r))
  ∧ item_of (Raise (fatal_exn (status_code r))) = None.
Proof.
  intros H. unfold fatal_exn.
  destruct (Z.eqb_spec (status_code r) 401) as [H4|H4].
  - split; [by apply handle_response_401 | done].
  - split; [by apply handle_response_other | done].
Qed.

Lemma item_of_stored_200 key r b :
  item_of (handle_response key r) = Some b → status_code r = 200%Z.
Proof.
  intros Hb. destruct (decide (status_code r = 200%Z)) as [|Hne]; [done|].
  destruct (handle_response_fatal key r Hne) as [Hr Hn]. congruence.
Qed.

Lemma all_ok_cons w key pre :
  status_code (server (requests w) key) = 200%Z →
  all_ok server (sent [key] w) pre →
  all_ok server w (key :: pre).
Proof.
  intros H0 Hok [|n] k Hn.
  - injection Hn as <-. simpl. by rewrite app_nil_r.
  - rewrite <- take_S_cons_requests. by apply Hok.
Qed.

(** When the loop raises, it is at the first call that is not answered
    with status 200. *)
Lemma fetch_keys_raise keys d w e w' :
  fetch_keys server keys d w = (Raise e, w') →
  ∃ pre k post,
    keys = pre ++ k :: post
    ∧ all_ok server w pre
    ∧ status_code (server (requests w ++ pre) k) ≠ 200%Z
    ∧ e = fatal_exn (status_code (server (requests w ++ pre) k))
    ∧ w' = sent (pre ++ [k]) w.
Proof.
  revert d w. induction keys as [|key rest IH]; intros d w; [done|].
  destruct (item_of (handle_response key (server (requests w) key)))
    as [b|] eqn:Hb.
  - rewrite (fetch_keys_stored _ _ _ _ _ _ Hb). intros Hrun.
    destruct (IH _ _ Hrun) as (pre & k & post & -> & Hok & Hs & -> & ->).
    exists (key :: pre), k, post.
    assert (requests (sent [key] w) ++ pre = requests w ++ key :: pre) as Hreq
      by (simpl; by rewrite <- app_assoc).
    rewrite Hreq in *. split_and!; [done| |done|done|by rewrite sent_sent].
    apply all_ok_cons; [|done]. by eapply item_of_stored_200.
  - assert (status_code (server (requests w) key) ≠ 200%Z) as Hne.
    { intros H0. destruct (handle_response_200 key _ H0) as [[c Hc]|Hc];
        by rewrite Hc in Hb. }
    destruct (handle_response_fatal key _ Hne) as [Hr Hn].
    rewrite (fetch_keys_raised _ _ _ _ _ _ Hr Hn). intros [= <- <-].
    exists [], key, rest. rewrite app_nil_r.
    split_and!; [done| |done..]. by intros n k Hk.
Qed.

End AggregatorOutcome.

(** X3.  [mr2bib] raises exactly when some call is not answered with
    status 200: it stops at the first such call, having requested the
    valid identifiers up to it and none after it, and the exception is
    [AuthenticationException] for 401 and the one with the status code
    otherwise.  A [NotFoundError] never leaves [mr2bib]. *)
Theorem mr2bib_raise_iff server id_list w e w' :
  mr2bib server id_list w = (Raise e, w')
  ↔ ∃ pre k post,
      valid_keys id_list = pre ++ k :: post
      ∧ all_ok server w pre
      ∧ status_code (server (requests w ++ pre) k) ≠ 200%Z
      ∧ e = fatal_exn (status_code (server (requests w ++ pre) k))
      ∧ w' = sent (pre ++ [k]) w.
Proof.
  rewrite mr2bib_unfold, mr2bib_dict_unfold. split.
  - destruct (fetch_keys _ _ _ _) as [[d|e0] w0] eqn:Hf; [done|].
    intros [= <- <-]. by eapply fetch_keys_raise.
  - intros (pre & k & post & -> & Hok & Hs & -> & ->).
    destruct (handle_response_fatal k _ Hs) as [Hr Hn].
    by rewrite (fetch_keys_fatal server pre k post _ w _ Hok Hr Hn).
Qed.

(** X4.  When a call is not answered with status 200, after calls that
    were, the process stops there: the later identifiers are not
    requested, nothing is printed to standard output, the exception is
    reported on standard error, and the exit status is 1; this holds for
    401 as for any other status. *)
Theorem script_fatal_status server linesep can_encode parsed stdin w
    pre k post :
  valid_keys (args_id (args (Cli_init parsed stdin))) = pre ++ k :: post →
  all_ok server w pre →
  status_code (server (requests w ++ pre) k) ≠ 200%Z →
  script server linesep can_encode parsed stdin w
  = (1%Z,
     write_stderr
       (Traceback (fatal_exn (status_code (server (requests w ++ pre) k))))
       (sent (pre ++ [k]) w)).
Proof.
  intros Hkeys Hok Hs. apply script_uncaught.
  - rewrite mr2bib_unfold, mr2bib_dict_unfold, Hkeys.
    destruct (handle_response_fatal k _ Hs) as [Hr Hn].
    by rewrite (fetch_keys_fatal server pre k post _ w _ Hok Hr Hn).
  - intros c. unfold fatal_exn. by destruct (_ =? _)%Z.
  - intros m. unfold fatal_exn. by destruct (_ =? _)%Z.
Qed.

(** The service that asks for authentication at the second request. *)
Lemma script_fatal_status_witness :
  script auth_server [newline] (λ _, true) plain_args [] world0
  = (1%Z,
     {| requests := [lit "MR0000000"; MR1996800];
        stdout := [];
        stderr := [Traceback AuthenticationException] |}).
Proof.
  apply (script_fatal_status auth_server [newline] (λ _, true) plain_args []
           world0 [lit "MR0000000"] MR1996800 [MR1996800]).
  - by vm_compute.
  - intros [|n] k Hn; [injection Hn as <-; by vm_compute | done].
  - by vm_compute.
Defined.

(** The same run, read backwards. *)
Lemma mr2bib_raise_iff_witness :
  ∃ pre k post,
    valid_keys sample_ids = pre ++ k :: post
    ∧ all_ok auth_server world0 pre
    ∧ status_code (auth_server (requests world0 ++ pre) k) ≠ 200%Z
    ∧ AuthenticationException
      = fatal_exn (status_code (auth_server (requests world0 ++ pre) k))
    ∧ sent [lit "MR0000000"; MR1996800] world0 = sent (pre ++ [k]) world0.
Proof.
  apply (proj1 (mr2bib_raise_iff auth_server sample_ids world0
                  AuthenticationException
                  (sent [lit "MR0000000"; MR1996800] world0))).
  by vm_compute.
Defined.

(** X5.  [mr2bib] writes nothing to the output streams, and the requests
    it makes are the valid identifiers in input order, one per occurrence,
    up to some point; when it returns it has requested all of them. *)
Theorem mr2bib_requests server id_list w :
  (∃ j, requests (mr2bib server id_list w).2
        = requests w ++ take j (valid_keys id_list))
  ∧ stdout (mr2bib server id_list w).2 = stdout w
  ∧ stderr (mr2bib server id_list w).2 = stderr w
  ∧ (∀ l w', mr2bib server id_list w = (Return l, w') →
             requests w' = requests w ++ valid_keys id_list).
Proof.
  assert (∃ j, (mr2bib server id_list w).2
               = sent (take j (valid_keys id_list)) w) as [j Hj].
  { rewrite mr2bib_unfold, mr2bib_dict_unfold.
    destruct (fetch_keys_requests server (valid_keys id_list)
                (validate_keys id_list [] ∅).2 w) as [j Hj].
    exists j. by destruct (fetch_keys _ _ _ _) as [[d|e] w1]. }
  rewrite Hj. split_and!; [by exists j|done|done|].
  intros l w' Hl. by destruct (mr2bib_return _ _ _ _ _ Hl) as [-> _].
Qed.

(** The sample batch: three requests for four identifiers. *)
Lemma mr2bib_requests_witness :
  ∃ l w', mr2bib sample_server sample_ids world0 = (Return l, w')
          ∧ requests w' = [lit "MR0000000"; MR1996800; MR1996800].
Proof.
  destruct (mr2bib sample_server sample_ids world0) as [[l|e] w'] eqn:Hl;
    [|by vm_compute in Hl].
  exists l, w'. split; [done|].
  exact (proj2 (proj2 (proj2 (mr2bib_requests sample_server sample_ids
                                world0))) l w' Hl).
Defined.

(** X6.  When [mr2bib_dict] returns, the keys of the dictionary are
    exactly the input identifiers; so the lookup in [mr2bib] never fails,
    its fallback is never used, and no entry that [mr2bib] takes from the
    dictionary carries the message ["Not found"] of that fallback. *)
Theorem mr2bib_dict_keys server key_list w d w' :
  mr2bib_dict server key_list w = (Return d, w') →
  (∀ k, is_Some (d !! k) ↔ k ∈ key_list)
  ∧ ∀ k, k ∈ key_list →
      ∃ b, d !! k = Some b
           ∧ lookup_or_not_found d k = b
           ∧ ∀ e, b = Err e → message e ≠ lit "Not found".
Proof.
  rewrite mr2bib_dict_unfold.
  destruct (validate_keys_spec key_list [] ∅) as (d0 & Hv & Hd0).
  rewrite Hv. simpl. intros Hf.
  destruct (fetch_keys_return _ _ _ _ _ _ Hf) as (_ & Hout & Hin).
  assert (∀ k, k ∈ key_list →
            ∃ b, d !! k = Some b
                 ∧ ∀ e, b = Err e → message e ≠ lit "Not found") as Hkey.
  { intros k Hk. destruct (is_valid k) eqn:Hvk.
    - destruct (Hin k) as (n & b & _ & _ & Hitem & Hb).
      { by apply list_elem_of_filter. }
      exists b. split; [done|]. intros e ->. unfold nth_fetch in Hitem.
      destruct (handle_response k _) as [c|e0] eqn:Hr; [done|].
      destruct e0; try done. injection Hitem as <-.
      apply handle_response_raise_not_found in Hr as [-> _]. by vm_compute.
    - eexists. rewrite Hout, Hd0, bool_decide_eq_true_2; [|done|].
      + split; [done|]. intros e [= <-]. by vm_compute.
      + intros [Hvk' _]%list_elem_of_filter. congruence. }
  split.
  - intros k. split; [|intros Hk; destruct (Hkey k Hk) as (b & -> & _); by eexists].
    intros Hsome. destruct (decide (k ∈ valid_keys key_list)) as [Hin'|Hnin].
    + by apply list_elem_of_filter in Hin' as [_ ?].
    + rewrite (Hout k Hnin), Hd0 in Hsome.
      destruct (decide (k ∈ key_list ∧ is_valid k = false)) as [[? _]|Hn];
        [done|].
      rewrite bool_decide_eq_false_2, lookup_empty in Hsome by done.
      by destruct Hsome.
  - intros k Hk. destruct (Hkey k Hk) as (b & Hb & Hmsg).
    exists b. unfold lookup_or_not_found. by rewrite Hb.
Qed.

(** The dictionary of the sample batch. *)
Lemma mr2bib_dict_keys_witness :
  ∃ d w', mr2bib_dict sample_server sample_ids world0 = (Return d, w')
          ∧ ∀ k, is_Some (d !! k) ↔ k ∈ sample_ids.
Proof.
  destruct (fetch_keys_total sample_server (valid_keys sample_ids)
              (validate_keys sample_ids [] ∅).2 world0 sample_ids_all_ok)
    as [d Hd].
  rewrite <- mr2bib_dict_unfold in Hd.
  exists d, (sent (valid_keys sample_ids) world0). split; [exact Hd|].
  exact (proj1 (mr2bib_dict_keys sample_server sample_ids world0 d _ Hd)).
Defined.

(** X7.  Duplicates share their entry: when [mr2bib] returns, two
    positions with the same identifier hold the same entry, and for a
    valid identifier it is the outcome of the last request for it, even
    when an earlier request for it was answered differently. *)
Theorem mr2bib_duplicates server id_list w l w' i j k :
  mr2bib server id_list w = (Return l, w') →
  id_list !! i = Some k →
  id_list !! j = Some k →
  l !! i = l !! j
  ∧ (is_valid k = true →
     ∃ n, valid_keys id_list !! n = Some k
          ∧ (∀ m, n < m → valid_keys id_list !! m ≠ Some k)
          ∧ item_of (nth_fetch server w (valid_keys id_list) n k) = l !! i).
Proof.
  intros Hl Hi Hj.
  destruct (mr2bib_return _ _ _ _ _ Hl) as (_ & f & -> & Hf).
  rewrite !list_lookup_fmap, Hi, Hj. split; [done|]. intros Hv.
  specialize (Hf k (list_elem_of_lookup_2 _ _ _ Hi)). rewrite Hv in Hf.
  destruct Hf as (n & Hn & Hlast & Hitem). by exists n.
Qed.

(** The service that knows a key from the second request on, asked twice:
    both entries are the record; the first answer is lost. *)
Lemma mr2bib_duplicates_witness :
  (mr2bib flaky_server twice world0 = (Return twice_result, sent twice world0)
   ∧ twice !! 0 = Some MR1996800 ∧ twice !! 1 = Some MR1996800)
  ∧ handle_response MR1996800 (flaky_server [] MR1996800)
    = Raise (NotFoundError not_found_message MR1996800)
  ∧ twice_result !! 0 = twice_result !! 1.
Proof.
  assert (mr2bib flaky_server twice world0
          = (Return twice_result, sent twice world0)) as Hl by (by vm_compute).
  split_and!; [done|done|done|by vm_compute|].
  exact (proj1 (mr2bib_duplicates flaky_server twice world0 twice_result
                  (sent twice world0) 0 1 MR1996800 Hl eq_refl eq_refl)).
Defined.

(** X8.  When no identifier of the batch is valid, [mr2bib] makes no
    request and leaves the world as it is, and every entry is the error
    for an invalid identifier.  The process makes no request either, and
    its exit status is 2 when the output can be written: always without
    the comments flag, since the output is then empty.  With the comments
    flag and comments that neither [print] nor the UTF-8 fallback can
    encode, the exit status is 1. *)
Theorem no_valid_identifier server linesep can_encode parsed stdin w :
  Forall (λ k, is_valid k = false) (args_id (args (Cli_init parsed stdin))) →
  mr2bib server (args_id (args (Cli_init parsed stdin))) w
  = (Return ((λ k, Err (ReferenceErrorInfo_init
                          (lit "Invalid Mathematical Reviews identifier") k))
             <$> args_id (args (Cli_init parsed stdin))), w)
  ∧ (script server linesep can_encode parsed stdin w).1
    = (if output_writable linesep can_encode
            (if comments parsed then
               (λ k, bibtex (Err (ReferenceErrorInfo_init
                                    (lit "Invalid Mathematical Reviews identifier")
                                    k)))
               <$> args_id (args (Cli_init parsed stdin))
             else [])
       then 2%Z else 1%Z)
  ∧ requests (script server linesep can_encode parsed stdin w).2
    = requests w.
Proof.
  set (ids := args_id (args (Cli_init parsed stdin))). intros Hinv.
  assert (valid_keys ids = []) as Hkeys.
  { unfold valid_keys. clear -Hinv.
    induction Hinv as [|k l Hk _ IH]; [done|].
    rewrite filter_cons, decide_False by congruence. exact IH. }
  assert (mr2bib server ids w
          = (Return ((λ k, Err (ReferenceErrorInfo_init invalid_message k))
                     <$> ids), w)) as Hbib.
  { rewrite mr2bib_unfold, mr2bib_dict_unfold, Hkeys. cbn [fetch_keys].
    do 2 f_equal. apply list_fmap_ext. intros i k Hk.
    destruct (validate_keys_spec ids [] ∅) as (d0 & Hv & Hd0).
    rewrite Hv. simpl. unfold lookup_or_not_found.
    rewrite Hd0, bool_decide_eq_true_2; [done|].
    split; [by eapply list_elem_of_lookup_2|].
    rewrite Forall_lookup in Hinv. by eapply Hinv. }
  split; [exact Hbib|].
  pose proof (run_return server (Cli_init parsed stdin) w _ _ Hbib) as Hrun.
  fold ids in Hrun.
  set (bib := (λ k, Err (ReferenceErrorInfo_init invalid_message k)) <$> ids)
    in *.
  assert (count_errors bib = length ids) as Hcount.
  { unfold count_errors, bib. clear. induction ids as [|k ids IH]; [done|].
    rewrite fmap_cons, filter_cons. simpl. by rewrite IH. }
  destruct (Cli_init_fields parsed stdin) as (Hc & _ & _ & Ho & _ & He & _).
  assert (tally_errors (create_output (Cli_init parsed stdin) bib) bib
          = (messages_append (lit "No successful matches")
               (create_output (Cli_init parsed stdin) bib), 2%Z)) as Ht.
  { assert (error_count (create_output (Cli_init parsed stdin) bib)
            = Z.of_nat (length ids)) as Hec.
    { rewrite create_output_spec. cbn [error_count]. rewrite He, Hcount. lia. }
    assert (args (create_output (Cli_init parsed stdin) bib)
            = args (Cli_init parsed stdin)) as Ha
      by (by rewrite create_output_spec).
    unfold tally_errors. rewrite Hec, Ha. fold ids. by rewrite Z.eqb_refl. }
  rewrite Ht in Hrun. cbn [fst snd] in Hrun.
  destruct (script_after_run _ linesep can_encode _ _ _ _ _ Hrun)
    as [Hst Hreq].
  split; [|exact Hreq]. rewrite Hst.
  cbn [output set_code messages_append code]. rewrite create_output_spec.
  cbn [output]. rewrite Ho. cbn [app].
  assert (flat_map (output_of (args (Cli_init parsed stdin))) bib
          = if comments parsed then
              (λ k, bibtex (Err (ReferenceErrorInfo_init invalid_message k)))
              <$> ids
            else []) as ->; [|done].
  unfold bib. clear -Hc. induction ids as [|k ids IH].
  - by destruct (comments parsed).
  - rewrite fmap_cons. cbn [flat_map output_of]. rewrite IH, Hc.
    by destruct (comments parsed).
Qed.

(** Two batches without a valid identifier: a short and a padded one
    without flags, and with [-c] the argument that the byte [0xff] gives,
    on a terminal that cannot encode it. *)
Lemma no_valid_identifier_witness :
  (Forall (λ k, is_valid k = false) [lit "MR199680"; lit " MR1996800"]
   ∧ (script sample_server [newline] (λ _, true)
        {| args_id := [lit "MR199680"; lit " MR1996800"]; comments := false;
           quiet := true; verbose := false |} [] world0).1 = 2%Z)
  ∧ (Forall (λ k, is_valid k = false) [surrogate_id]
     ∧ (script sample_server [newline] (λ _, false)
          {| args_id := [surrogate_id]; comments := true;
             quiet := false; verbose := false |} [] world0).1 = 1%Z).
Proof.
  assert (Forall (λ k, is_valid k = false) [lit "MR199680"; lit " MR1996800"])
    as H1 by (repeat (apply Forall_cons_2; [by vm_compute|]);
              apply Forall_nil_2).
  assert (Forall (λ k, is_valid k = false) [surrogate_id])
    as H2 by (repeat (apply Forall_cons_2; [by vm_compute|]);
              apply Forall_nil_2).
  split; (split; [done|]).
  - exact (proj1 (proj2 (no_valid_identifier sample_server [newline]
                           (λ _, true)
                           {| args_id := [lit "MR199680"; lit " MR1996800"];
                              comments := false; quiet := true;
                              verbose := false |} [] world0 H1))).
  - exact (proj1 (proj2 (no_valid_identifier sample_server [newline]
                           (λ _, false)
                           {| args_id := [surrogate_id]; comments := true;
                              quiet := false; verbose := false |}
                           [] world0 H2))).
Defined.

(** ** Further properties of the front end *)

Section Buffers.

Lemma count_errors_cons b bib :
  count_errors (b :: bib)
  = (if isinstance_ReferenceErrorInfo b then 1 else 0) + count_errors bib.
Proof. unfold count_errors. rewrite filter_cons. by destruct b. Qed.

Lemma length_flat_map_output_of a bib :
  length (flat_map (output_of a) bib)
  = if comments a then length bib else length bib - count_errors bib.
Proof.
  induction bib as [|b bib IH].
  - by destruct (comments a).
  - cbn [flat_map]. rewrite length_app, IH, count_errors_cons.
    pose proof (count_errors_le bib). unfold output_of.
    destruct b, (comments a); cbn [length isinstance_ReferenceErrorInfo]; lia.
Qed.

Lemma length_flat_map_message_of a bib :
  length (flat_map (message_of a) bib)
  = if quiet a then 0 else count_errors bib.
Proof.
  induction bib as [|b bib IH].
  - by destruct (quiet a).
  - cbn [flat_map]. rewrite length_app, IH, count_errors_cons.
    unfold message_of.
    destruct b, (quiet a); cbn [length isinstance_ReferenceErrorInfo]; lia.
Qed.

(** Joining lines that end with an empty one terminates each of the
    others by the separator. *)
Lemma join_terminated (sep : str) (msgs : list str) :
  msgs ≠ [] → join sep (msgs ++ [[]]) = concat ((λ m, m ++ sep) <$> msgs).
Proof.
  induction msgs as [|m msgs IH]; [done|]. intros _.
  destruct msgs as [|m' msgs].
  - simpl. by rewrite !app_nil_r.
  - change ((m :: m' :: msgs) ++ [[]]) with (m :: ((m' :: msgs) ++ [[]])).
    change (join sep (m :: (m' :: msgs) ++ [[]]))
      with (m ++ sep ++ join sep ((m' :: msgs) ++ [[]])).
    rewrite IH by done. rewrite !fmap_cons, !concat_cons.
    by rewrite <- !app_assoc.
Qed.

End Buffers.

(** X9.  [create_output] keeps the arguments and the code, adds the
    number of error entries to the error counter, and appends in the order
    of the list: to the output, the text of every record and, with the
    comments flag, the comment of every error; to the messages, unless
    quiet, the line of every error.  So the output grows by one line per
    entry with the comments flag and by one line per record without it,
    and the messages grow by one line per error, or not at all when
    quiet. *)
Theorem create_output_buffers self bib :
  args (create_output self bib) = args self
  ∧ code (create_output self bib) = code self
  ∧ error_count (create_output self bib)
    = (error_count self + Z.of_nat (count_errors bib))%Z
  ∧ output (create_output self bib)
    = output self ++ flat_map (output_of (args self)) bib
  ∧ messages (create_output self bib)
    = messages self ++ flat_map (message_of (args self)) bib
  ∧ length (output (create_output self bib))
    = length (output self)
      + (if comments (args self) then length bib
         else length bib - count_errors bib)
  ∧ length (messages (create_output self bib))
    = length (messages self)
      + (if quiet (args self) then 0 else count_errors bib).
Proof.
  rewrite create_output_spec. cbn [args code error_count output messages].
  rewrite !length_app, length_flat_map_output_of, length_flat_map_message_of.
  done.
Qed.

(** X10.  [print_messages] writes nothing when there is no message;
    otherwise it writes to standard error, in one piece, every message
    followed by the line separator. *)
Theorem print_messages_lines linesep self w :
  (messages self = [] → print_messages linesep self w = (Return self, w))
  ∧ (messages self ≠ [] →
     print_messages linesep self w
     = (Return (messages_append [] self),
        write_stderr
          (Write (concat ((λ m, m ++ linesep) <$> messages self))) w)).
Proof.
  unfold print_messages. split.
  - by intros ->.
  - intros Hne. destruct (messages self) as [|m msgs] eqn:Hm; [done|].
    unfold mbind, io_bind, act, mret, io_ret.
    cbn [messages messages_append]. rewrite Hm.
    by rewrite (join_terminated linesep (m :: msgs)).
Qed.

(** Two messages, written with their line breaks. *)
Lemma print_messages_lines_witness :
  print_messages [newline]
    {| args := plain_args; output := [];
       messages := [lit "Error: x (y)"; lit "No successful matches"];
       error_count := 1; code := 2 |} world0
  = (Return {| args := plain_args; output := [];
               messages := [lit "Error: x (y)"; lit "No successful matches";
                            []];
               error_count := 1; code := 2 |},
     write_stderr
       (Write (lit "Error: x (y)" ++ [newline]
               ++ lit "No successful matches" ++ [newline])) world0).
Proof.
  refine (eq_trans
            (proj2 (print_messages_lines [newline]
                      {| args := plain_args; output := [];
                         messages := [lit "Error: x (y)";
                                      lit "No successful matches"];
                         error_count := 1; code := 2 |} world0) _) _).
  - discriminate.
  - by vm_compute.
Defined.

Section ExitStatus.

Variable server : list str → str → response.
Variable linesep : str.
Variable can_encode : str → bool.

(** The exit status when an exception leaves [mr2bib]. *)
Lemma script_status_raise parsed stdin w e w' :
  mr2bib server (args_id (args (Cli_init parsed stdin))) w = (Raise e, w') →
  (script server linesep can_encode parsed stdin w).1
  = match e with
    | HTTPError _ | FatalError _ => 2%Z
    | _ => 1%Z
    end.
Proof.
  intros Hb. unfold script, main, try_except, mbind, io_bind.
  rewrite (run_raise _ _ _ _ _ Hb). by destruct e.
Qed.

(** The code of [tally_errors] after [create_output], from the number of
    errors. *)
Lemma tally_errors_code parsed stdin bib :
  length bib = length (args_id (args (Cli_init parsed stdin))) →
  (tally_errors (create_output (Cli_init parsed stdin) bib) bib).2
  = if decide (count_errors bib = length bib) then 2%Z
    else if decide (count_errors bib = 0) then 0%Z else 1%Z.
Proof.
  intros Hlen.
  destruct (Cli_init_fields parsed stdin) as (_ & _ & _ & _ & _ & He & _).
  unfold tally_errors. rewrite create_output_spec.
  cbn [args error_count]. rewrite He, Z.add_0_l, <- Hlen.
  destruct (Z.eqb_spec (Z.of_nat (count_errors bib)) (Z.of_nat (length bib)));
    destruct (decide (count_errors bib = length bib)); try lia; [done|].
  destruct (Z.gtb_spec (Z.of_nat (count_errors bib)) 0);
    destruct (decide (count_errors bib = 0)); try lia; done.
Qed.

Lemma mr2bib_length id_list w bib w' :
  mr2bib server id_list w = (Return bib, w') → length bib = length id_list.
Proof.
  intros Hb. destruct (mr2bib_return _ _ _ _ _ Hb) as (_ & f & -> & _).
  by rewrite length_fmap.
Qed.

Lemma flat_map_no_errors a bib :
  count_errors bib = 0 →
  flat_map (output_of a) bib = bibtex <$> bib
  ∧ flat_map (message_of a) bib = [].
Proof.
  induction bib as [|b bib IH]; [done|].
  rewrite count_errors_cons. destruct b as [r|e]; simpl; [|lia].
  intros H0. destruct (IH H0) as [-> ->]. done.
Qed.

(** The output buffer after [Cli.run]. *)
Lemma run_output parsed stdin bib :
  output (set_code
            (tally_errors (create_output (Cli_init parsed stdin) bib) bib).2
            (tally_errors (create_output (Cli_init parsed stdin) bib) bib).1)
  = flat_map (output_of (args (Cli_init parsed stdin))) bib.
Proof.
  destruct (Cli_init_fields parsed stdin) as (_ & _ & _ & Ho & _).
  unfold tally_errors.
  repeat case_match; cbn [fst snd set_code messages_append output];
    rewrite create_output_spec; cbn [output]; by rewrite Ho.
Qed.

Lemma script_status_tally parsed stdin w bib w' :
  mr2bib server (args_id (args (Cli_init parsed stdin))) w = (Return bib, w') →
  (script server linesep can_encode parsed stdin w).1
  = if output_writable linesep can_encode
         (flat_map (output_of (args (Cli_init parsed stdin))) bib)
    then
      if decide (count_errors bib = length bib) then 2%Z
      else if decide (count_errors bib = 0) then 0%Z else 1%Z
    else 1%Z.
Proof.
  intros Hb.
  destruct (script_after_run _ linesep can_encode _ _ _ _ _
              (run_return _ _ _ _ _ Hb)) as [-> _].
  rewrite run_output. cbn [code set_code].
  rewrite tally_errors_code; [done|]. by eapply mr2bib_length.
Qed.

End ExitStatus.

(** X11.  Whatever the arguments, the input and the answers of the
    service, the exit status of the process is 0, 1 or 2. *)
Theorem script_status_range server linesep can_encode parsed stdin w :
  (script server linesep can_encode parsed stdin w).1 = 0%Z
  ∨ (script server linesep can_encode parsed stdin w).1 = 1%Z
  ∨ (script server linesep can_encode parsed stdin w).1 = 2%Z.
Proof.
  destruct (mr2bib server (args_id (args (Cli_init parsed stdin))) w)
    as [[bib|e] w'] eqn:Hb.
  - rewrite (script_status_tally _ _ _ _ _ _ _ _ Hb).
    destruct (output_writable _ _ _); repeat case_decide; auto.
  - rewrite (script_status_raise _ _ _ _ _ _ _ _ Hb). destruct e; auto.
Qed.

(** X12.  Once [parse_args] has returned the arguments, the exit status
    is 0 exactly when [mr2bib] returns a list without any error entry for
    a batch that is not empty and the records can be written to standard
    output. *)
Theorem script_status_0_iff server linesep can_encode parsed stdin w :
  (script server linesep can_encode parsed stdin w).1 = 0%Z
  ↔ ∃ bib w',
      mr2bib server (args_id (args (Cli_init parsed stdin))) w
      = (Return bib, w')
      ∧ count_errors bib = 0
      ∧ args_id (args (Cli_init parsed stdin)) ≠ []
      ∧ output_writable linesep can_encode (bibtex <$> bib) = true.
Proof.
  destruct (mr2bib server (args_id (args (Cli_init parsed stdin))) w)
    as [[bib|e] w'] eqn:Hb.
  - rewrite (script_status_tally _ _ _ _ _ _ _ _ Hb).
    pose proof (mr2bib_length _ _ _ _ _ Hb) as Hlen. split.
    + intros Hst. exists bib, w'. split; [done|].
      destruct (output_writable _ _ _) eqn:Hw; [|done].
      repeat case_decide; try done.
      destruct (flat_map_no_errors (args (Cli_init parsed stdin)) bib)
        as [Hout _]; [done|].
      rewrite Hout in Hw. split_and!; [done| |done].
      intros Hnil. rewrite Hnil in Hlen. simpl in Hlen. congruence.
    + intros (bib' & w'' & [= <- <-] & H0 & Hne & Hw).
      destruct (flat_map_no_errors (args (Cli_init parsed stdin)) bib H0)
        as [-> _].
      rewrite Hw.
      assert (length bib ≠ 0).
      { rewrite Hlen. by destruct (args_id _). }
      repeat case_decide; try done; lia.
  - rewrite (script_status_raise _ _ _ _ _ _ _ _ Hb). split.
    + by destruct e.
    + by intros (bib & w'' & [=] & _).
Qed.

(** The sample service asked for a key that it knows. *)
Lemma script_status_0_iff_witness :
  (script sample_server [newline] (λ _, true)
     {| args_id := [MR1996800]; comments := false; quiet := false;
        verbose := false |} [] world0).1 = 0%Z.
Proof.
  apply (proj2 (script_status_0_iff sample_server [newline] (λ _, true)
                  {| args_id := [MR1996800]; comments := false;
                     quiet := false; verbose := false |} [] world0)).
  eexists _, _.
  split_and!; [by vm_compute|by vm_compute|discriminate|by vm_compute].
Defined.

Section Success.

Variable server : list str → str → response.
Variable linesep : str.
Variable can_encode : str → bool.

(** [Cli.print_output] on an output that is not empty. *)
Lemma print_output_nonempty self w :
  output self ≠ [] →
  print_output linesep can_encode self w
  = if can_encode (join linesep (output self)) then
      (Return self, write_stdout (Print (join linesep (output self))) w)
    else if utf8_encodable (join linesep (output self) ++ linesep) then
      (Return (if verbose (args self) then
                 messages_append
                   (lit "Could not use system encoding; using utf-8") self
               else self),
       write_stdout (WriteUtf8 (join linesep (output self) ++ linesep)) w)
    else (Raise UnicodeEncodeError, w).
Proof.
  intros Hne. unfold print_output.
  destruct (output self) as [|o os]; [done|].
  destruct (can_encode _); [done|].
  destruct (utf8_encodable _); [|done]. by destruct (verbose _).
Qed.

End Success.

(** X13.  When [mr2bib] returns a list without errors for a batch that
    is not empty, the records, joined by the line separator, go to
    standard output and the exit status is 0: through [print] when they
    can be encoded, and otherwise as UTF-8 bytes with a line separator
    added, in which case the verbose flag adds the warning about the
    encoding to standard error.  When UTF-8 cannot encode them either,
    nothing is printed, the encoding error is reported, and the exit
    status is 1. *)
Theorem script_success server linesep can_encode parsed stdin w bib w' :
  mr2bib server (args_id (args (Cli_init parsed stdin))) w = (Return bib, w') →
  count_errors bib = 0 →
  args_id (args (Cli_init parsed stdin)) ≠ [] →
  script server linesep can_encode parsed stdin w
  = if can_encode (join linesep (bibtex <$> bib)) then
      (0%Z, write_stdout (Print (join linesep (bibtex <$> bib))) w')
    else if utf8_encodable (join linesep (bibtex <$> bib) ++ linesep) then
      (0%Z,
       if verbose parsed then
         write_stderr
           (Write (lit "Could not use system encoding; using utf-8"
                   ++ linesep))
           (write_stdout
              (WriteUtf8 (join linesep (bibtex <$> bib) ++ linesep)) w')
       else
         write_stdout
           (WriteUtf8 (join linesep (bibtex <$> bib) ++ linesep)) w')
    else (1%Z, write_stderr (Traceback UnicodeEncodeError) w').
Proof.
  intros Hb H0 Hne.
  pose proof (mr2bib_length _ _ _ _ _ Hb) as Hlen.
  pose proof (run_return server _ w bib w' Hb) as Hrun.
  destruct (Cli_init_fields parsed stdin) as (_ & Hverb & _ & Ho & Hm & He & Hc).
  unfold script, main, try_except, mbind, io_bind.
  set (cli := Cli_init parsed stdin) in *. clearbody cli.
  destruct (flat_map_no_errors (args cli) bib H0) as [Hout Hmsg].
  assert (create_output cli bib
          = {| args := args cli; output := bibtex <$> bib; messages := [];
               error_count := 0; code := 0 |}) as Hco.
  { rewrite create_output_spec, Ho, Hm, He, Hc, Hout, Hmsg, H0. done. }
  rewrite Hco in Hrun.
  assert (bib ≠ []) as Hbib.
  { intros ->. destruct (args_id (args cli)); [done|]. simpl in Hlen. lia. }
  assert ((0 =? Z.of_nat (length (args_id (args cli))))%Z = false) as Hz.
  { apply Z.eqb_neq. rewrite <- Hlen. destruct bib; [done|]. simpl. lia. }
  unfold tally_errors in Hrun. cbn [args error_count] in Hrun.
  rewrite Hz in Hrun. cbn in Hrun. rewrite Hrun.
  cbn [mret io_ret].
  rewrite print_output_nonempty by (cbn; by destruct bib).
  cbn [output args set_code]. destruct (can_encode _).
  - by cbn.
  - destruct (utf8_encodable _); [|done].
    rewrite Hverb. destruct (verbose parsed); cbn; [|done].
    by rewrite app_nil_r.
Qed.

(** The sample service asked for a key that it knows, on a terminal that
    cannot encode the record, with the verbose flag; and a service whose
    record holds a lone surrogate, which UTF-8 cannot encode either. *)
Lemma script_success_witness :
  script sample_server [newline] (λ _, false)
    {| args_id := [MR1996800]; comments := false; quiet := false;
       verbose := true |} [] world0
  = (0%Z,
     {| requests := [MR1996800];
        stdout := [WriteUtf8 (sample_record MR1996800 ++ [newline])];
        stderr := [Write (lit "Could not use system encoding; using utf-8"
                          ++ [newline])] |})
  ∧ script surrogate_server [newline] (λ _, false)
      {| args_id := [MR1996800]; comments := false; quiet := false;
         verbose := true |} [] world0
    = (1%Z,
       {| requests := [MR1996800];
          stdout := [];
          stderr := [Traceback UnicodeEncodeError] |}).
Proof.
  split.
  - refine (eq_trans
              (script_success sample_server [newline] (λ _, false)
                 {| args_id := [MR1996800]; comments := false; quiet := false;
                    verbose := true |} [] world0
                 [Ref {| entry := sample_record MR1996800 |}]
                 (sent [MR1996800] world0) _ _ _) _).
    + by vm_compute.
    + by vm_compute.
    + discriminate.
    + by vm_compute.
  - refine (eq_trans
              (script_success surrogate_server [newline] (λ _, false)
                 {| args_id := [MR1996800]; comments := false; quiet := false;
                    verbose := true |} [] world0
                 [Ref {| entry := [newline] ++ surrogate_id |}]
                 (sent [MR1996800] world0) _ _ _) _).
    + by vm_compute.
    + by vm_compute.
    + discriminate.
    + by vm_compute.
Defined.

(** ** Further properties of identifiers *)

Section Trimming.

(** Two tables of ranges of which no two ranges meet have no character
    in common. *)
Lemma in_ranges_disjoint (tbl1 tbl2 : list (N * N)) (c : N) :
  forallb (λ r1, forallb (λ r2, (snd r1 <? fst r2)%N || (snd r2 <? fst r1)%N)
                   tbl2) tbl1 = true →
  in_ranges tbl1 c = true → in_ranges tbl2 c = false.
Proof.
  intros Hdis H1. destruct (in_ranges tbl2 c) eqn:H2; [|done].
  unfold in_ranges in H1, H2.
  apply existsb_exists in H1 as (r1 & Hr1 & Hc1).
  apply existsb_exists in H2 as (r2 & Hr2 & Hc2).
  rewrite forallb_forall in Hdis. specialize (Hdis r1 Hr1).
  rewrite forallb_forall in Hdis. specialize (Hdis r2 Hr2).
  apply andb_true_iff in Hc1 as [?%N.leb_le ?%N.leb_le].
  apply andb_true_iff in Hc2 as [?%N.leb_le ?%N.leb_le].
  apply orb_true_iff in Hdis as [?%N.ltb_lt|?%N.ltb_lt]; lia.
Qed.

(** No character is both a digit and white space. *)
Lemma digit_not_space (c : N) : char_isdigit c = true → char_isspace c = false.
Proof. apply in_ranges_disjoint. by vm_compute. Qed.

Lemma lstrip_no_space (c : N) (s : str) :
  char_isspace c = false → lstrip (c :: s) = c :: s.
Proof. intros H. cbn [lstrip]. by rewrite H. Qed.

Lemma rstrip_no_space (s : str) (c : N) :
  char_isspace c = false → rstrip (s ++ [c]) = s ++ [c].
Proof.
  intros H. unfold rstrip. rewrite reverse_snoc, lstrip_no_space by done.
  by rewrite reverse_cons, reverse_involutive.
Qed.

Lemma rstrip_space (s : str) (c : N) :
  char_isspace c = true → rstrip (s ++ [c]) = rstrip s.
Proof.
  intros H. unfold rstrip. rewrite reverse_snoc. cbn [lstrip]. by rewrite H.
Qed.

(** A valid identifier starts with ["M"] and ends with a digit. *)
Lemma is_valid_ends (s : str) :
  is_valid s = true →
  ∃ mid c, s = 77%N :: mid ++ [c] ∧ char_isdigit c = true.
Proof.
  intros (Hpre & Hdig & Hlen)%is_valid_true_iff.
  destruct s as [|a s]; [done|].
  change (lit "MR") with [77%N; 82%N] in Hpre.
  assert (a = 77%N) as -> by (by injection Hpre).
  destruct (decide (s = [])) as [->|Hne]; [simpl in Hlen; lia|].
  destruct (exists_last Hne) as (mid & c & ->).
  exists mid, c. split; [done|].
  assert (2 ≤ length (77%N :: mid)).
  { rewrite length_cons, length_app in Hlen. simpl in *. lia. }
  change (77%N :: mid ++ [c]) with ((77%N :: mid) ++ [c]) in Hdig.
  rewrite drop_app_le in Hdig by done.
  apply Forall_app in Hdig as [_ Hc]. exact (Forall_inv Hc).
Qed.

End Trimming.

(** X14.  Validation accepts no padding: a valid identifier has no white
    space at either end, so stripping leaves it as it is, and a string
    that stripping changes is not valid.  In particular a valid
    identifier followed by a line break is not valid as an argument,
    while as a line of standard input it is stripped to the identifier. *)
Theorem is_valid_no_padding (s : str) :
  (is_valid s = true →
   strip s = s
   ∧ strip (s ++ [newline]) = s
   ∧ is_valid (s ++ [newline]) = false)
  ∧ (strip s ≠ s → is_valid s = false).
Proof.
  assert (∀ t, is_valid t = true → strip t = t) as Hstrip.
  { intros t (mid & c & -> & Hc)%is_valid_ends. unfold strip.
    rewrite lstrip_no_space by (by vm_compute).
    change (77%N :: mid ++ [c]) with ((77%N :: mid) ++ [c]).
    apply rstrip_no_space. by apply digit_not_space. }
  split.
  - intros Hv. pose proof (Hstrip s Hv) as Hs.
    assert (strip (s ++ [newline]) = s) as Hnl.
    { destruct (is_valid_ends s Hv) as (mid & c & -> & Hc). unfold strip.
      change ((77%N :: mid ++ [c]) ++ [newline])
        with (77%N :: (mid ++ [c]) ++ [newline]).
      rewrite lstrip_no_space by (by vm_compute).
      change (77%N :: (mid ++ [c]) ++ [newline])
        with ((77%N :: mid ++ [c]) ++ [newline]).
      rewrite rstrip_space by (by vm_compute).
      change (77%N :: mid ++ [c]) with ((77%N :: mid) ++ [c]).
      apply rstrip_no_space. by apply digit_not_space. }
    split_and!; [done..|].
    destruct (is_valid (s ++ [newline])) eqn:Hv'; [|done].
    apply Hstrip in Hv'. rewrite Hnl in Hv'.
    apply (f_equal length) in Hv'. rewrite length_app in Hv'. simpl in Hv'. lia.
  - intros Hne. destruct (is_valid s) eqn:Hv; [|done].
    by destruct (Hne (Hstrip s Hv)).
Qed.

(** ["MR1996800"], with and without a line break. *)
Lemma is_valid_no_padding_witness :
  is_valid MR1996800 = true
  ∧ strip (MR1996800 ++ [newline]) = MR1996800
  ∧ is_valid (MR1996800 ++ [newline]) = false.
Proof.
  assert (is_valid MR1996800 = true) as Hv by (by vm_compute).
  split; [exact Hv|].
  exact (proj2 (proj1 (is_valid_no_padding MR1996800) Hv)).
Defined.

(** X15.  The bare form of an error's identifier is always a prefix of
    the identifier, and a proper one unless the identifier is empty. *)
Theorem bare_id_proper_prefix (message ident : str) :
  ∃ suffix,
    ident = bare_id (ReferenceErrorInfo_init message ident) ++ suffix
    ∧ (ident ≠ [] → suffix ≠ []).
Proof.
  cbn [bare_id ReferenceErrorInfo_init]. change (lit "v") with [letter_v].
  destruct (decide (letter_v ∈ ident)) as [Hv|Hv].
  - destruct (rfind_present _ _ Hv) as (pre & post & Heq & _ & Hr).
    exists ([letter_v] ++ post). rewrite Hr, slice_upto.
    rewrite Heq at 2. rewrite take_app_length. done.
  - rewrite (rfind_absent _ _ Hv), slice_drop_last.
    destruct (decide (ident = [])) as [->|Hne]; [by exists []|].
    destruct (exists_last Hne) as (init & c & ->).
    exists [c]. by rewrite removelast_last.
Qed.
